(** * Telemetry relay of the posture backend ([backend/server.js])

    A shallow embedding of the ingest path ([toNum], [normalizeSample],
    [normalizeEvent], [handleIncoming], the two POST routes), of the
    WebSocket fan-out ([broadcast], the [connection] handler) and of the
    window extraction of [/gemini/analyze], together with the properties
    the specification states about them.

    JavaScript values are modelled as the runtime has them: numbers are
    IEEE-754 binary64 values (Rocq's primitive [float]), objects are finite
    maps from property names to values, arrays are lists.  The mutable
    globals of the module ([latest1], [latest2], [history1], [history2]),
    the NDJSON files and the sockets of the connected clients form an
    explicit state that every handler threads through. *)

From Stdlib Require Import Floats ZArith Zpower Ascii.
From stdpp Require Import gmap strings list fin_maps sorting.

#[local] Set Warnings "-register-all".
#[local] Open Scope Z_scope.

(** ** JavaScript values *)

Module Js.

(** The values a JSON body and the server's records are made of.  Strings
    are sequences of code units below 256. *)
Inductive value : Type :=
  | VUndefined
  | VNull
  | VBool (b : bool)
  | VNum (f : float)
  | VStr (s : string)
  | VArr (l : list value)
  | VObj (o : gmap string value).

(** An object literal [{ k1: v1, ..., kn: vn }]: later keys win. *)
Definition object (fields : list (string * value)) : gmap string value :=
  foldl (fun o kv => <[kv.1 := kv.2]> o) ∅ fields.

(** [v?.k] for the property names the server reads ([event], [pitch], [ts],
    [kind], ...): the own property of an object, [undefined] for a missing
    property and for [null], [undefined], numbers, booleans, strings and
    arrays (none of them has a property of these names). *)
Definition get (v : value) (k : string) : value :=
  match v with
  | VObj o => default VUndefined (o !! k)
  | _ => VUndefined
  end.

(** [typeof v === "string"]. *)
Definition is_string (v : value) : bool :=
  match v with VStr _ => true | _ => false end.

(** [v === s] for a string literal [s] (strict equality: no coercion). *)
Definition strict_eq_str (v : value) (s : string) : bool :=
  match v with VStr s' => String.eqb s' s | _ => false end.

(** [v === n] for a number literal [n]: IEEE equality on numbers only. *)
Definition strict_eq_num (v : value) (n : float) : bool :=
  match v with VNum f => PrimFloat.eqb f n | _ => false end.

(** [!s] for a string: only the empty string is falsy. *)
Definition falsy_string (s : string) : bool :=
  match s with EmptyString => true | String _ _ => false end.

(** [a ?? b]: [b] when [a] is [null] or [undefined]. *)
Definition nullish (a b : value) : value :=
  match a with VUndefined | VNull => b | _ => a end.

(** [Number.isFinite] on a number. *)
Definition isFinite (f : float) : bool := PrimFloat.is_finite f.

(** *** Strings to numbers

    [Number(s)] follows the StringNumericLiteral grammar: surrounding white
    space is dropped, the empty string is [0], then an optionally signed
    decimal literal (with optional fraction and exponent), [Infinity], or an
    unsigned [0x]/[0o]/[0b] integer; anything else is [NaN].  The value is
    the double nearest to the literal (ties to even).  Strings are sequences
    of code units below 256, so the white space is TAB, LF, VT, FF, CR, SP
    and NBSP. *)

Definition is_white_space (c : ascii) : bool :=
  let n := N_of_ascii c in
  (N.leb 9 n && N.leb n 13 || N.eqb n 32 || N.eqb n 160)%N.

(** [s.trimStart()]. *)
Fixpoint trim_start (s : string) : string :=
  match s with
  | String c s' => if is_white_space c then trim_start s' else s
  | EmptyString => EmptyString
  end.

(** [s.trim()]. *)
Definition trim (s : string) : string :=
  String.rev (trim_start (String.rev (trim_start s))).

(** The value of [c] as a digit in [base] (at most 16), if it is one. *)
Definition digit_of (base : Z) (c : ascii) : option Z :=
  let n := Z.of_N (N_of_ascii c) in
  let d :=
    if (48 <=? n) && (n <=? 57) then Some (n - 48)
    else if (97 <=? n) && (n <=? 102) then Some (n - 87)
    else if (65 <=? n) && (n <=? 70) then Some (n - 55)
    else None in
  match d with
  | Some k => if k <? base then Some k else None
  | None => None
  end.

(** The longest prefix of digits of [s] in [base], read after the digits
    [acc] (of which there are [cnt]): value, number of digits, rest. *)
Fixpoint read_digits (base : Z) (s : string) (acc : Z) (cnt : Z) : Z * Z * string :=
  match s with
  | String c s' =>
      match digit_of base c with
      | Some d => read_digits base s' (base * acc + d) (cnt + 1)
      | None => (acc, cnt, s)
      end
  | EmptyString => (acc, cnt, s)
  end.

(** The double nearest to [(-1)^neg * m * 10^e]. *)
Definition float_of_decimal (neg : bool) (m : Z) (e : Z) : float :=
  SF2Prim
    match m with
    | Zpos p =>
        if 0 <=? e
        then binary_normalize prec emax (cond_Zopp neg (m * 10 ^ e)) 0 neg
        else SFdiv prec emax (S754_finite neg p 0)
                             (S754_finite false (Z.to_pos (10 ^ (- e))) 0)
    | _ => S754_zero neg
    end.

(** An optional sign: whether it is [-], and the rest. *)
Definition read_sign (s : string) : bool * string :=
  match s with
  | String "+" s' => (false, s')
  | String "-" s' => (true, s')
  | _ => (false, s)
  end.

(** ExponentPart (optional): [None] when an [e] is not followed by digits. *)
Definition read_exponent (s : string) : option (Z * string) :=
  match s with
  | String c s' =>
      if Ascii.eqb c "e" || Ascii.eqb c "E" then
        let '(neg, s1) := read_sign s' in
        let '(v, cnt, rest) := read_digits 10 s1 0 0 in
        if 0 <? cnt then Some (cond_Zopp neg v, rest) else None
      else Some (0, s)
  | EmptyString => Some (0, s)
  end.

(** StrUnsignedDecimalLiteral other than [Infinity]. *)
Definition read_unsigned_decimal (neg : bool) (s : string) : float :=
  let '(ip, icnt, s1) := read_digits 10 s 0 0 in
  let '(m, fcnt, s2) :=
    match s1 with
    | String "." s1' => read_digits 10 s1' ip 0
    | _ => (ip, 0, s1)
    end in
  if 0 <? icnt + fcnt then
    match read_exponent s2 with
    | Some (ex, EmptyString) => float_of_decimal neg m (ex - fcnt)
    | _ => nan
    end
  else nan.

(** The digits of a [0x], [0o] or [0b] literal. *)
Definition read_radix (base : Z) (s : string) : float :=
  match read_digits base s 0 0 with
  | (v, cnt, EmptyString) =>
      if 0 <? cnt then float_of_decimal false v 0 else nan
  | _ => nan
  end.

(** [Number(s)] for a string [s]. *)
Definition Number_of_string (s : string) : float :=
  match trim s with
  | EmptyString => PrimFloat.zero
  | String "0" (String "x" r) | String "0" (String "X" r) => read_radix 16 r
  | String "0" (String "o" r) | String "0" (String "O" r) => read_radix 8 r
  | String "0" (String "b" r) | String "0" (String "B" r) => read_radix 2 r
  | t =>
      let '(neg, u) := read_sign t in
      if String.eqb u "Infinity" then (if neg then neg_infinity else infinity)
      else read_unsigned_decimal neg u
  end.

(** *** JSON.stringify

    The text is represented by the JSON document it denotes (what a client
    gets back from [JSON.parse]): a property whose value is [undefined] is
    left out, [undefined] inside an array and a number that is not finite
    become [null], and negative zero is written [0].  The server
    serialises objects only. *)

Definition json_number (f : float) : value :=
  if isFinite f
  then (if PrimFloat.is_zero f then VNum PrimFloat.zero else VNum f)
  else VNull.

Fixpoint JSON_value (v : value) : value :=
  match v with
  | VUndefined => VNull
  | VNull => VNull
  | VBool b => VBool b
  | VNum f => json_number f
  | VStr s => VStr s
  | VArr l => VArr (JSON_value <$> l)
  | VObj o => VObj (omap JSON_property o)
  end
with JSON_property (v : value) : option value :=
  match v with
  | VUndefined => None
  | VNull => Some VNull
  | VBool b => Some (VBool b)
  | VNum f => Some (json_number f)
  | VStr s => Some (VStr s)
  | VArr l => Some (VArr (JSON_value <$> l))
  | VObj o => Some (VObj (omap JSON_property o))
  end.

(** [typeof v === "number"]. *)
Definition is_number (v : value) : bool :=
  match v with VNum _ => true | _ => false end.

(** *** Math.min and Math.max of a list of numbers

    [Math.min(...l)] starts from [+Infinity]; a [NaN] among the arguments
    gives [NaN]; otherwise each argument replaces the lowest one so far when
    it is smaller, or when it is [-0] and the lowest so far is [+0].
    [Math.max] is the mirror image from [-Infinity]. *)

Definition is_neg_zero (x : float) : bool := PrimFloat.is_zero x && PrimFloat.get_sign x.
Definition is_pos_zero (x : float) : bool := PrimFloat.is_zero x && negb (PrimFloat.get_sign x).

Definition min_step (lowest x : float) : float :=
  if is_neg_zero x && is_pos_zero lowest then x
  else if (x <? lowest)%float then x
  else lowest.

Definition max_step (highest x : float) : float :=
  if is_pos_zero x && is_neg_zero highest then x
  else if (highest <? x)%float then x
  else highest.

Definition Math_min (l : list float) : float :=
  if existsb PrimFloat.is_nan l then nan else foldl min_step infinity l.

Definition Math_max (l : list float) : float :=
  if existsb PrimFloat.is_nan l then nan else foldl max_step neg_infinity l.

(** A count (an array length) as a number. *)
Definition number_of_nat (n : nat) : float :=
  PrimFloat.of_uint63 (Uint63.of_Z (Z.of_nat n)).

(** The nesting of a value: arrays and objects count one more than what
    they hold. *)
Fixpoint vsize (v : value) : nat :=
  match v with
  | VArr l => S (foldr (fun x acc => vsize x + acc) 0 l)
  | VObj o => S (map_fold (fun _ x acc => vsize x + acc) 0 o)
  | _ => 0
  end%nat.

End Js.

(** ** The server *)

Module Server.
Import Js.

(** [toNum]: a finite number, or a string that is not blank and that
    [Number] reads as a finite number; [None] stands for [undefined]. *)
Definition toNum (v : value) : option float :=
  match v with
  | VNum f => if isFinite f then Some f else None
  | VStr s =>
      if negb (falsy_string (trim s)) && isFinite (Number_of_string s)
      then Some (Number_of_string s)
      else None
  | _ => None
  end.

(** The value of a property initialised with a [toNum] result. *)
Definition num_or_undefined (r : option float) : value :=
  match r with Some f => VNum f | None => VUndefined end.

(** The result of a normalizer: [{ ok: false, error }] or [{ ok: true, msg }]. *)
Inductive norm : Type :=
  | NormError (error : string)
  | NormOk (msg : gmap string value).

(** The normalizer result as the response payload of a rejection. *)
Definition norm_value (n : norm) : value :=
  match n with
  | NormError e => VObj (object [("ok", VBool false); ("error", VStr e)])
  | NormOk m => VObj (object [("ok", VBool true); ("msg", VObj m)])
  end.

(** The optional numeric properties of a sample, in the order of the
    object literal of [normalizeSample]. *)
Definition optional_fields : list string :=
  ["ax"; "ay"; "az"; "pitch_smooth"; "roll"; "a_mag"; "dpitch";
   "baseline_pitch"; "button"; "button_click"].

(** [normalizeSample(body)]; [now] is what [Date.now()] returns. *)
Definition normalizeSample (body : value) (now : float) : norm :=
  match toNum (get body "pitch") with
  | None => NormError "pitch must be a number"
  | Some pitch =>
      let ts := default now (toNum (get body "ts")) in
      NormOk (object
        [("kind", VStr "sample");
         ("ax", num_or_undefined (toNum (get body "ax")));
         ("ay", num_or_undefined (toNum (get body "ay")));
         ("az", num_or_undefined (toNum (get body "az")));
         ("pitch", VNum pitch);
         ("pitch_smooth", num_or_undefined (toNum (get body "pitch_smooth")));
         ("roll", num_or_undefined (toNum (get body "roll")));
         ("a_mag", num_or_undefined (toNum (get body "a_mag")));
         ("dpitch", num_or_undefined (toNum (get body "dpitch")));
         ("baseline_pitch", num_or_undefined (toNum (get body "baseline_pitch")));
         ("button", num_or_undefined (toNum (get body "button")));
         ("button_click", num_or_undefined (toNum (get body "button_click")));
         ("ts", VNum ts)])
  end.

(** [{ ...body }]: the own properties of an object.  [normalizeEvent] only
    spreads a body whose [event] property is a string, which is an object
    (see [normalizeEvent_ok_object]); any other value contributes nothing
    here. *)
Definition spread (body : value) : gmap string value :=
  match body with VObj o => o | _ => ∅ end.

(** [normalizeEvent(body)]. *)
Definition normalizeEvent (body : value) (now : float) : norm :=
  let event := if is_string (get body "event") then get body "event" else VUndefined in
  match event with
  | VStr (String _ _) =>
      let ts := default now (toNum (get body "ts")) in
      NormOk (<["ts" := VNum ts]> (<["kind" := VStr "event"]> (spread body)))
  | _ => NormError "event must be a string"
  end.

(** *** State *)

(** [readyState] of a socket. *)
Inductive ready_state : Type := CONNECTING | OPEN | CLOSING | CLOSED.

(** A member of [wss.clients]: its [readyState] and the messages sent on
    it so far, oldest first. *)
Record client : Type := Client {
  readyState : ready_state;
  received : list value;
}.

(** The module's globals, the [fs.appendFile] calls issued so far (file
    path and line, oldest first) and the connected sockets. *)
Record state : Type := State {
  latest1 : value;
  latest2 : value;
  history1 : list value;
  history2 : list value;
  appended : list (string * value);
  clients : list client;
}.

(** The state after the module is loaded; [t1] and [t2] are the two
    [Date.now()] readings of the initialisers. *)
Definition init (t1 t2 : float) : state :=
  {| latest1 := VObj (object [("pitch", VNum 0); ("ts", VNum t1); ("source", VNum 1)]);
     latest2 := VObj (object [("pitch", VNum 0); ("ts", VNum t2); ("source", VNum 2)]);
     history1 := [];
     history2 := [];
     appended := [];
     clients := [] |}.

(** The two history arrays, as the references [handleIncoming] is given. *)
Inductive array_ref : Type := History1 | History2.

Definition read (a : array_ref) (st : state) : list value :=
  match a with History1 => history1 st | History2 => history2 st end.

Definition write (a : array_ref) (l : list value) (st : state) : state :=
  match a with
  | History1 =>
      {| latest1 := latest1 st; latest2 := latest2 st; history1 := l;
         history2 := history2 st; appended := appended st; clients := clients st |}
  | History2 =>
      {| latest1 := latest1 st; latest2 := latest2 st; history1 := history1 st;
         history2 := l; appended := appended st; clients := clients st |}
  end.

(** [arr.push(msg)] and [arr.shift()]. *)
Definition push (a : array_ref) (msg : value) (st : state) : state :=
  write a (read a st ++ [msg]) st.

Definition shift (a : array_ref) (st : state) : state :=
  write a (tail (read a st)) st.

(** [(m) => (latest1 = m)] and [(m) => (latest2 = m)]. *)
Definition setLatest1 (m : value) (st : state) : state :=
  {| latest1 := m; latest2 := latest2 st; history1 := history1 st;
     history2 := history2 st; appended := appended st; clients := clients st |}.

Definition setLatest2 (m : value) (st : state) : state :=
  {| latest1 := latest1 st; latest2 := m; history1 := history1 st;
     history2 := history2 st; appended := appended st; clients := clients st |}.

(** [appendNdjson(filePath, obj)]: one more line for [filePath]. *)
Definition appendNdjson (filePath : string) (obj : value) (st : state) : state :=
  {| latest1 := latest1 st; latest2 := latest2 st; history1 := history1 st;
     history2 := history2 st;
     appended := appended st ++ [(filePath, JSON_value obj)];
     clients := clients st |}.

(** [ws.send(msg)]. *)
Definition send (msg : value) (c : client) : client :=
  {| readyState := readyState c; received := received c ++ [msg] |}.

Definition is_open (c : client) : bool :=
  match readyState c with OPEN => true | _ => false end.

(** The loop of [broadcast] over [wss.clients]: the serialised object is
    sent on every open socket. *)
Definition deliver (obj : value) (cs : list client) : list client :=
  let msg := JSON_value obj in
  (fun c => if is_open c then send msg c else c) <$> cs.

(** [broadcast(obj)]. *)
Definition broadcast (obj : value) (st : state) : state :=
  {| latest1 := latest1 st; latest2 := latest2 st; history1 := history1 st;
     history2 := history2 st; appended := appended st;
     clients := deliver obj (clients st) |}.

(** The [connection] handler, run on a socket the WebSocket server has just
    added (open) to [wss.clients]. *)
Definition on_connection (st : state) : state :=
  let ws := send (JSON_value (latest2 st))
              (send (JSON_value (latest1 st)) (Client OPEN [])) in
  {| latest1 := latest1 st; latest2 := latest2 st; history1 := history1 st;
     history2 := history2 st; appended := appended st;
     clients := clients st ++ [ws] |}.

(** The socket at position [i] of [wss.clients] closes. *)
Definition on_close (i : nat) (st : state) : state :=
  {| latest1 := latest1 st; latest2 := latest2 st; history1 := history1 st;
     history2 := history2 st; appended := appended st;
     clients := alter (fun c => Client CLOSED (received c)) i (clients st) |}.

(** What [handleIncoming] returns: [{ ok, status, payload }]. *)
Record response : Type := Response {
  ok : bool;
  status : Z;
  payload : value;
}.

Definition rejection (n : norm) : response :=
  {| ok := false; status := 400; payload := norm_value n |}.

Definition acknowledgment : response :=
  {| ok := true; status := 200; payload := VObj (object [("ok", VBool true)]) |}.

Section Config.

(** [MAX_BUFFER], [ANALYSIS_DEFAULT_WINDOW] and [ANALYSIS_MAX_WINDOW] are
    read from the environment when the module is loaded (defaults 2000, 300
    and 1000); they are taken here as integers.  So are the two file paths. *)
Variable MAX_BUFFER : Z.
Variable ANALYSIS_DEFAULT_WINDOW : Z.
Variable ANALYSIS_MAX_WINDOW : Z.
Variable TELEMETRY1_PATH : string.
Variable TELEMETRY2_PATH : string.

(** [historyArr.push(msg); if (historyArr.length > MAX_BUFFER) historyArr.shift();] *)
Definition remember (historyArr : array_ref) (msg : value) (st : state) : state :=
  let st := push historyArr msg st in
  if MAX_BUFFER <? Z.of_nat (length (read historyArr st))
  then shift historyArr st
  else st.

(** [handleIncoming(reqBody, source, telemetryPath, historyArr, setLatest)]. *)
Definition handleIncoming (reqBody : value) (source : float) (telemetryPath : string)
    (historyArr : array_ref) (setLatest : value -> state -> state)
    (now : float) (st : state) : response * state :=
  if is_string (get reqBody "event") then
    match normalizeEvent reqBody now with
    | NormError e => (rejection (NormError e), st)
    | NormOk m =>
        let msg := VObj (<["source" := VNum source]> m) in
        let st := appendNdjson telemetryPath msg st in
        let st := broadcast msg st in
        let st := remember historyArr msg st in
        (acknowledgment, st)
    end
  else
    match normalizeSample reqBody now with
    | NormError e => (rejection (NormError e), st)
    | NormOk m =>
        let msg := VObj (<["source" := VNum source]> m) in
        let st := setLatest msg st in
        let st := appendNdjson telemetryPath msg st in
        let st := broadcast msg st in
        let st := remember historyArr msg st in
        (acknowledgment, st)
    end.

(** [POST /imu] and [POST /imu2]. *)
Definition post_imu (body : value) (now : float) (st : state) : response * state :=
  handleIncoming body 1 TELEMETRY1_PATH History1 setLatest1 now st.

Definition post_imu2 (body : value) (now : float) (st : state) : response * state :=
  handleIncoming body 2 TELEMETRY2_PATH History2 setLatest2 now st.

(** *** The store, per source *)

(** The two sources, [1] behind [/imu] and [2] behind [/imu2]. *)
Inductive source_id : Type := Source1 | Source2.

Definition source_number (s : source_id) : float :=
  match s with Source1 => 1%float | Source2 => 2%float end.

(** [latest1]/[latest2] and [history1]/[history2], as [GET /latestN] and
    [GET /historyN] read them (before serialisation). *)
Definition getLatest (s : source_id) (st : state) : value :=
  match s with Source1 => latest1 st | Source2 => latest2 st end.

Definition getHistory (s : source_id) (st : state) : list value :=
  match s with Source1 => history1 st | Source2 => history2 st end.

Definition telemetry_path (s : source_id) : string :=
  match s with Source1 => TELEMETRY1_PATH | Source2 => TELEMETRY2_PATH end.

(** A body posted to the endpoint of source [s]. *)
Definition ingest (s : source_id) (body : value) (now : float) (st : state)
    : response * state :=
  match s with
  | Source1 => post_imu body now st
  | Source2 => post_imu2 body now st
  end.

(** *** Runs of the server

    The server is single-threaded: it handles one request or socket event
    at a time, to completion. *)
Inductive input : Type :=
  | Post (s : source_id) (body : value) (now : float)
  | Connect
  | Close (i : nat).

Definition step (st : state) (i : input) : state :=
  match i with
  | Post s body now => (ingest s body now st).2
  | Connect => on_connection st
  | Close j => on_close j st
  end.

Definition run (st : state) (l : list input) : state := foldl step st l.

(** *** The window of [/gemini/analyze] *)

(** [Math.floor] of a finite number, as the integer it denotes. *)
Definition Math_floor (f : float) : Z :=
  match Prim2SF f with
  | S754_finite s m e => Z.shiftl (cond_Zopp s (Zpos m)) e
  | _ => 0
  end.

(** [Math.max(20, Math.min(ANALYSIS_MAX_WINDOW, Math.floor(windowReq)))]
    with [windowReq = toNum(req.body?.window) ?? ANALYSIS_DEFAULT_WINDOW]. *)
Definition window (body : value) : Z :=
  let windowReq :=
    match toNum (get body "window") with
    | Some f => Math_floor f
    | None => ANALYSIS_DEFAULT_WINDOW
    end in
  Z.max 20 (Z.min ANALYSIS_MAX_WINDOW windowReq).

(** [arr.slice(Math.max(0, arr.length - window))]. *)
Definition pickWindow (window : Z) (arr : list value) : list value :=
  drop (Z.to_nat (Z.max 0 (Z.of_nat (length arr) - window))) arr.

(** [(x) => x.kind === "sample"]. *)
Definition is_sample (x : value) : bool := strict_eq_str (get x "kind") "sample".

(** [ToNumber] on the operands of [-].  Objects and arrays would go through
    their [toString]; the [ts] of a stored record is always a number (see
    [record_has_finite_ts]), so they are read as [NaN] here. *)
Definition ToNumber (v : value) : float :=
  match v with
  | VUndefined => nan
  | VNull => 0
  | VBool b => if b then 1 else 0
  | VNum f => f
  | VStr s => Number_of_string s
  | VArr _ | VObj _ => nan
  end.

(** [(a, b) => (a.ts ?? 0) - (b.ts ?? 0)]. *)
Definition compareFn (a b : value) : float :=
  (ToNumber (nullish (get a "ts") (VNum 0)) - ToNumber (nullish (get b "ts") (VNum 0)))%float.

(** The order [arr.sort(comparefn)] puts the elements in: a stable sort;
    [x] goes after [y] when the comparator is positive on [(x, y)]. *)
Fixpoint sort_insert (comparefn : value -> value -> float) (x : value) (l : list value)
    : list value :=
  match l with
  | [] => [x]
  | y :: l' =>
      if (0 <? comparefn x y)%float
      then y :: sort_insert comparefn x l'
      else x :: l
  end.

Definition sorted_by (comparefn : value -> value -> float) (l : list value) : list value :=
  foldr (sort_insert comparefn) [] l.

(** The contents of [combinedSamples] in the [/gemini/analyze] handler. *)
Definition combinedSamples (body : value) (st : state) : list value :=
  let window := window body in
  let source := nullish (get body "source") (VStr "both") in
  let s1 := List.filter is_sample (pickWindow window (history1 st)) in
  let s2 := List.filter is_sample (pickWindow window (history2 st)) in
  if strict_eq_num source 1 || strict_eq_str source "1" then s1
  else if strict_eq_num source 2 || strict_eq_str source "2" then s2
  else sorted_by compareFn (s1 ++ s2).

(** *** The arrays of the handler

    [slice], [filter] and the array literal [[...s1, ...s2]] build a new
    array, while [sort] rearranges its receiver in place.  To tell which
    arrays the handler writes, the arrays are kept in a store and named by
    their address: [Array_slice], [Array_filter] and [Array_spread] allocate,
    [Array_sort] overwrites. *)
Definition deref (r : nat) (h : list (list value)) : list value :=
  default [] (h !! r).

Definition alloc (a : list value) (h : list (list value)) : nat * list (list value) :=
  (length h, h ++ [a]).

Definition Array_slice (r : nat) (start : Z) (h : list (list value)) :=
  alloc (drop (Z.to_nat start) (deref r h)) h.

Definition Array_filter (r : nat) (p : value -> bool) (h : list (list value)) :=
  alloc (List.filter p (deref r h)) h.

Definition Array_spread (r1 r2 : nat) (h : list (list value)) :=
  alloc (deref r1 h ++ deref r2 h) h.

Definition Array_sort (r : nat) (comparefn : value -> value -> float)
    (h : list (list value)) : nat * list (list value) :=
  (r, <[r := sorted_by comparefn (deref r h)]> h).

(** The handler's computation of [combinedSamples], on the store: the
    address of the result and the store it leaves.  [history1] and
    [history2] are the addresses of the two history arrays. *)
Definition combinedSamples_in (body : value) (history1 history2 : nat)
    (h : list (list value)) : nat * list (list value) :=
  let window := window body in
  let source := nullish (get body "source") (VStr "both") in
  let pickWindow arr h :=
    Array_slice arr (Z.max 0 (Z.of_nat (length (deref arr h)) - window)) h in
  let '(w1, h) := pickWindow history1 h in
  let '(s1, h) := Array_filter w1 is_sample h in
  let '(w2, h) := pickWindow history2 h in
  let '(s2, h) := Array_filter w2 is_sample h in
  if strict_eq_num source 1 || strict_eq_str source "1" then (s1, h)
  else if strict_eq_num source 2 || strict_eq_str source "2" then (s2, h)
  else
    let '(c, h) := Array_spread s1 s2 h in
    Array_sort c compareFn h.

(** The normalizer [handleIncoming] applies: events are recognised by an
    [event] property that is a string. *)
Definition normalize (reqBody : value) (now : float) : norm :=
  if is_string (get reqBody "event")
  then normalizeEvent reqBody now
  else normalizeSample reqBody now.

(** The record ([msg]) [handleIncoming] builds for an accepted body. *)
Definition record (s : source_id) (body : value) (now : float) : option value :=
  match normalize body now with
  | NormOk m => Some (VObj (<["source" := VNum (source_number s)]> m))
  | NormError _ => None
  end.

Definition post_record (s : source_id) (i : input) : option value :=
  match i with
  | Post s' body now =>
      match s, s' with
      | Source1, Source1 | Source2, Source2 => record s body now
      | _, _ => None
      end
  | _ => None
  end.

(** The records accepted for source [s] along a run, oldest first. *)
Definition accepted (s : source_id) (l : list input) : list value :=
  omap (post_record s) l.

(** The records accepted for either source along a run, oldest first. *)
Definition accepted_all (l : list input) : list value :=
  omap (fun i => match i with Post s body now => record s body now | _ => None end) l.

(** The array and the setter the route of source [s] hands over. *)
Definition history_ref (s : source_id) : array_ref :=
  match s with Source1 => History1 | Source2 => History2 end.

Definition setLatest (s : source_id) : value -> state -> state :=
  match s with Source1 => setLatest1 | Source2 => setLatest2 end.

Definition other (s : source_id) : source_id :=
  match s with Source1 => Source2 | Source2 => Source1 end.

(** What [push] followed by the guarded [shift] leaves of an array. *)
Definition bounded_push (l : list value) (msg : value) : list value :=
  if MAX_BUFFER <? Z.of_nat (length (l ++ [msg])) then tail (l ++ [msg]) else l ++ [msg].

(** The inputs of a run that come before socket [i] closes. *)
Fixpoint until_close (i : nat) (l : list input) : list input :=
  match l with
  | [] => []
  | Close j :: l' => if Nat.eqb i j then [] else Close j :: until_close i l'
  | x :: l' => x :: until_close i l'
  end.

(** The last [n] elements of a list. *)
Definition lastn {A} (n : nat) (l : list A) : list A := drop (length l - n) l.

(** A serialised record that carries one [kind] tag, a [source] and a [ts]. *)
Definition tagged (v : value) : Prop :=
  (get v "kind" = VStr "sample" \/ get v "kind" = VStr "event")
  /\ (get v "source" = VNum 1 \/ get v "source" = VNum 2)
  /\ get v "ts" <> VUndefined.

(** A serialised [latest] of source [s]: a [source] and a [ts], and either
    the [kind] of a sample or, for the start-up placeholder, no [kind]. *)
Definition latest_shape (s : source_id) (v : value) : Prop :=
  (get v "kind" = VStr "sample" \/ get v "kind" = VUndefined)
  /\ get v "source" = VNum (source_number s)
  /\ get v "ts" <> VUndefined.

(** What a socket has been sent: the two [latest] records on connection,
    then tagged records. *)
Definition socket_shape (c : client) : Prop :=
  exists c1 c2 rest,
    received c = c1 :: c2 :: rest
    /\ latest_shape Source1 c1 /\ latest_shape Source2 c2
    /\ Forall tagged rest.

(** The [ts] the comparator reads off a record. *)
Definition ts_of (x : value) : float := ToNumber (nullish (get x "ts") (VNum 0)).

(** Ascending [ts]: in a list that is [StronglySorted ts_le] the [ts] of a
    record is at most the [ts] of every record after it. *)
Definition ts_le (a b : value) : Prop := (ts_of a <=? ts_of b)%float = true.

(** A record whose [ts] is a finite number. *)
Definition has_finite_ts (x : value) : bool :=
  match get x "ts" with VNum f => isFinite f | _ => false end.

(** An input whose clock reading, if it has one, is finite (as every
    [Date.now()] is). *)
Definition finite_clock (i : input) : bool :=
  match i with Post _ _ now => isFinite now | _ => true end.

(** A zero or a finite number, among the values a double can take. *)
Definition is_finite_SF (x : spec_float) : bool :=
  match x with S754_zero _ | S754_finite _ _ _ => true | _ => false end.

(** *** The read routes and the files *)

(** [GET /latest1] and [GET /latest2]: [res.json(latestN)]. *)
Definition GET_latest (s : source_id) (st : state) : value :=
  JSON_value (getLatest s st).

(** [GET /history1] and [GET /history2]: [res.json(historyN)]. *)
Definition GET_history (s : source_id) (st : state) : value :=
  JSON_value (VArr (getHistory s st)).

(** The lines of the file at [path]: what [appendNdjson] has appended to
    it, oldest first. *)
Definition file_lines (path : string) (st : state) : list value :=
  snd <$> List.filter (fun line => String.eqb line.1 path) (appended st).

(** *** The fallback statistics of [/gemini/analyze] *)

(** [SLOUCH_DEG] is read from the environment (default 15). *)
Variable SLOUCH_DEG : float.

(** [samples.map((s) => s.pitch).filter((p) => typeof p === "number" &&
    Number.isFinite(p))], in the handler and in [buildTelemetrySummary]. *)
Definition pitches (samples : list value) : list float :=
  omap (fun s => match get s "pitch" with
                 | VNum p => if isFinite p then Some p else None
                 | _ => None
                 end) samples.

(** [n ? Math.min(...pitches) : null], [n ? Math.max(...pitches) : null]. *)
Definition pitch_min (ps : list float) : option float :=
  match ps with [] => None | _ => Some (Math_min ps) end.

Definition pitch_max (ps : list float) : option float :=
  match ps with [] => None | _ => Some (Math_max ps) end.

(** [n ? pitches.reduce((a, b) => a + b, 0) / n : null]. *)
Definition pitch_avg (ps : list float) : option float :=
  match ps with
  | [] => None
  | _ => Some (foldl PrimFloat.add 0 ps / number_of_nat (length ps))%float
  end.

(** [n ? pitches.filter((p) => p >= SLOUCH_DEG).length : 0] and
    [n ? (slouchCount / n) * 100 : 0], for a threshold [deg]: the handler
    uses [SLOUCH_DEG], [buildTelemetrySummary] a constant of its own. *)
Definition slouchCount (deg : float) (ps : list float) : nat :=
  length (List.filter (fun p => (deg <=? p)%float) ps).

Definition slouchPct (deg : float) (ps : list float) : float :=
  match ps with
  | [] => 0
  | _ => (number_of_nat (slouchCount deg ps) / number_of_nat (length ps) * 100)%float
  end.

(** [overall] and [confidence] of the fallback report. *)
Definition fallback_overall (ps : list float) : string :=
  if (60 <=? slouchPct SLOUCH_DEG ps)%float then "bad"
  else if (25 <=? slouchPct SLOUCH_DEG ps)%float then "okay"
  else "good".

Definition fallback_confidence (ps : list float) : string :=
  if (120 <=? length ps)%nat then "high"
  else if (40 <=? length ps)%nat then "medium"
  else "low".

(** *** The telemetry summary ([gemini.js])

    [x.toFixed(d)] and the conversion of a value to a string in a template
    literal are the engine's; the summary is defined over them. *)
Variable toFixed : float -> Z -> string.
Variable ToString : value -> string.

Definition newline : string := String "010"%char EmptyString.

(** [buildTelemetrySummary(samples)]. *)
Definition buildTelemetrySummary (samples : list value) : string :=
  match last samples with
  | None => "No samples available."
  | Some last =>
      let pitches := pitches samples in
      match pitches with
      | [] => "No numeric pitch samples available."
      | _ =>
          let n := number_of_nat (length pitches) in
          let min := Math_min pitches in
          let max := Math_max pitches in
          let avg := (foldl PrimFloat.add 0 pitches / n)%float in
          let SLOUCH_DEG := 15%float in
          let slouchPct := slouchPct SLOUCH_DEG pitches in
          String.concat newline
            ["Samples: " +:+ ToString (VNum n);
             "Pitch(deg): min=" +:+ toFixed min 2 +:+ " avg=" +:+ toFixed avg 2
               +:+ " max=" +:+ toFixed max 2;
             "Heuristic: slouch>=" +:+ ToString (VNum SLOUCH_DEG) +:+ "deg for "
               +:+ toFixed slouchPct 1 +:+ "% of samples";
             "Latest: pitch=" +:+ toFixed (ToNumber (get last "pitch")) 2
               +:+ " ts=" +:+ ToString (get last "ts")]
      end
  end.

(** The text [/gemini/analyze] hands to the model for a request. *)
Definition telemetryText (body : value) (st : state) : string :=
  buildTelemetrySummary (combinedSamples body st).

(** *** The serial bridge ([serial-bridge.js])

    The [data] handler, from the object [JSON.parse] gave it: the object is
    posted when its [pitch] is a number or its [event] a string, and
    dropped otherwise.  What the route then sees as [req.body] is the
    document [JSON.stringify(obj)] denotes. *)
Definition bridge_posts (obj : value) : option value :=
  let isSample := is_number (get obj "pitch") in
  let isEvent := is_string (get obj "event") in
  if negb isSample && negb isEvent then None else Some (JSON_value obj).

(** *** Vocabulary of the further properties *)

(** A record whose [pitch] is a finite number. *)
Definition has_finite_pitch (x : value) : bool :=
  match get x "pitch" with VNum p => isFinite p | _ => false end.

(** The numeric properties of a sample record. *)
Definition numeric_fields : list string :=
  "pitch" :: "ts" :: "source" :: optional_fields.

(** The line [handleIncoming] appends for an input, with its file. *)
Definition logged_line (i : input) : option (string * value) :=
  match i with
  | Post s body now =>
      (fun msg => (telemetry_path s, JSON_value msg)) <$> record s body now
  | _ => None
  end.

(** The lines appended along a run, oldest first. *)
Definition logged (l : list input) : list (string * value) := omap logged_line l.

(** Whether an input is a post to the endpoint of source [s]. *)
Definition posts_to (s : source_id) (i : input) : bool :=
  match i, s with
  | Post Source1 _ _, Source1 | Post Source2 _ _, Source2 => true
  | _, _ => false
  end.

(** Whether an input closes socket [j]. *)
Definition closes (j : nat) (i : input) : bool :=
  match i with Close k => Nat.eqb j k | _ => false end.

(** *** Bodies and runs used in the examples below *)

(** [{"pitch": 10}], [{"pitch": "abc"}], [{"pitch": 10, "ax": "abc"}]. *)
Definition body_pitch_10 : value := VObj (object [("pitch", VNum 10)]).
Definition body_pitch_abc : value := VObj (object [("pitch", VStr "abc")]).
Definition body_bad_ax : value :=
  VObj (object [("pitch", VNum 10); ("ax", VStr "abc")]).

(** [{"event": "button_click", "ts": 123456}], and a body with the empty
    string as [event] next to a numeric [pitch]. *)
Definition body_button_click : value :=
  VObj (object [("event", VStr "button_click"); ("ts", VNum 123456)]).
Definition body_empty_event : value :=
  VObj (object [("event", VStr EmptyString); ("pitch", VNum 10)]).

(** A body that names its own [kind], [source] and [ts]. *)
Definition body_forged : value :=
  VObj (object [("event", VStr "calibrate"); ("kind", VStr "sample");
                ("source", VNum 7); ("ts", VStr "yesterday")]).

(** [{"pitch": p, "ts": t}]. *)
Definition body_sample (p t : float) : value :=
  VObj (object [("pitch", VNum p); ("ts", VNum t)]).

(** Three samples for source 1. *)
Definition three_samples : list input :=
  [Post Source1 (body_sample 1 100) 0; Post Source1 (body_sample 2 200) 0;
   Post Source1 (body_sample 3 300) 0].

(** [n] samples for source 1, with pitch 1, 2, ..., [n]. *)
Definition numbered_samples (n : nat) : list input :=
  (fun k => Post Source1
              (body_sample (PrimFloat.of_uint63 (Uint63.of_Z (Z.of_nat k))) 0) 0)
  <$> seq 1 n.

(** Samples and an event for both sources, with [ts] out of order. *)
Definition mixed_run : list input :=
  [Post Source1 (body_sample 1 30) 0; Post Source2 (body_sample 2 10) 0;
   Post Source1 body_button_click 0; Post Source1 (body_sample 3 20) 0].

(** *** Basic facts *)

Ltac object_lookup := unfold object; simpl foldl; simplify_map_eq; try done.

Lemma get_VObj (o : gmap string value) k :
  get (VObj o) k = default VUndefined (o !! k).
Proof. reflexivity. Qed.

Lemma get_JSON_value (o : gmap string value) k :
  get (JSON_value (VObj o)) k
  = default VUndefined (o !! k ≫= JSON_property).
Proof. simpl. by rewrite lookup_omap. Qed.

Lemma get_insert_eq (o : gmap string value) k v : get (VObj (<[k := v]> o)) k = v.
Proof. by rewrite get_VObj, lookup_insert_eq. Qed.

Lemma get_insert_ne (o : gmap string value) k k' v :
  k <> k' -> get (VObj (<[k := v]> o)) k' = get (VObj o) k'.
Proof. intros. by rewrite !get_VObj, lookup_insert_ne. Qed.

Lemma normalizeEvent_ok_object body now m :
  normalizeEvent body now = NormOk m -> exists o, body = VObj o.
Proof.
  destruct body; try (cbn; discriminate). eauto.
Qed.

Lemma ingest_handleIncoming s body now st :
  ingest s body now st
  = handleIncoming body (source_number s) (telemetry_path s)
      (history_ref s) (setLatest s) now st.
Proof. by destruct s. Qed.

Lemma ingest_rejected s body now st e :
  normalize body now = NormError e ->
  ingest s body now st = (rejection (NormError e), st).
Proof.
  rewrite ingest_handleIncoming. unfold normalize, handleIncoming.
  destruct (is_string (get body "event")); intros ->; reflexivity.
Qed.

Lemma ingest_sample s body now st m :
  is_string (get body "event") = false ->
  normalizeSample body now = NormOk m ->
  let msg := VObj (<["source" := VNum (source_number s)]> m) in
  ingest s body now st
  = (acknowledgment,
     remember (history_ref s) msg
       (broadcast msg (appendNdjson (telemetry_path s) msg (setLatest s msg st)))).
Proof.
  intros He Hn. rewrite ingest_handleIncoming. unfold handleIncoming.
  by rewrite He, Hn.
Qed.

Lemma ingest_event s body now st m :
  is_string (get body "event") = true ->
  normalizeEvent body now = NormOk m ->
  let msg := VObj (<["source" := VNum (source_number s)]> m) in
  ingest s body now st
  = (acknowledgment,
     remember (history_ref s) msg
       (broadcast msg (appendNdjson (telemetry_path s) msg st))).
Proof.
  intros He Hn. rewrite ingest_handleIncoming. unfold handleIncoming.
  by rewrite He, Hn.
Qed.

(** The state after a step, component by component. *)

Lemma remember_latest a msg st s :
  getLatest s (remember a msg st) = getLatest s st.
Proof.
  unfold remember. destruct (_ <? _); destruct a, s; reflexivity.
Qed.

Lemma remember_appended a msg st :
  appended (remember a msg st) = appended st.
Proof. unfold remember. destruct (_ <? _); destruct a; reflexivity. Qed.

Lemma remember_clients a msg st :
  clients (remember a msg st) = clients st.
Proof. unfold remember. destruct (_ <? _); destruct a; reflexivity. Qed.

Lemma remember_history s msg st :
  getHistory s (remember (history_ref s) msg st) = bounded_push (getHistory s st) msg.
Proof.
  unfold remember, bounded_push.
  destruct s; simpl; destruct (_ <? _); reflexivity.
Qed.

Lemma remember_history_other s msg st :
  getHistory (other s) (remember (history_ref s) msg st) = getHistory (other s) st.
Proof.
  unfold remember. destruct s; simpl; destruct (_ <? _); reflexivity.
Qed.

Lemma setLatest_latest s msg st : getLatest s (setLatest s msg st) = msg.
Proof. by destruct s. Qed.

Lemma setLatest_latest_other s msg st :
  getLatest (other s) (setLatest s msg st) = getLatest (other s) st.
Proof. by destruct s. Qed.

Lemma record_sample s body now m :
  is_string (get body "event") = false ->
  normalizeSample body now = NormOk m ->
  record s body now = Some (VObj (<["source" := VNum (source_number s)]> m)).
Proof. intros He Hn. unfold record, normalize. by rewrite He, Hn. Qed.

Lemma record_event s body now m :
  is_string (get body "event") = true ->
  normalizeEvent body now = NormOk m ->
  record s body now = Some (VObj (<["source" := VNum (source_number s)]> m)).
Proof. intros He Hn. unfold record, normalize. by rewrite He, Hn. Qed.

(** A record is a sample exactly when it comes from the sample branch. *)
Lemma normalizeSample_kind body now m :
  normalizeSample body now = NormOk m -> m !! "kind" = Some (VStr "sample").
Proof.
  unfold normalizeSample. destruct (toNum (get body "pitch")); [|done].
  intros [= <-]. object_lookup.
Qed.

Lemma normalizeEvent_kind body now m :
  normalizeEvent body now = NormOk m -> m !! "kind" = Some (VStr "event").
Proof.
  unfold normalizeEvent.
  destruct (if is_string _ then _ else _) as [| | | |[|]| |]; try done.
  intros [= <-]. by simplify_map_eq.
Qed.

(** The effect of one posted body on the store, the files and the sockets,
    in terms of the record it is accepted as. *)
Lemma ingest_effect s body now st :
  let st' := (ingest s body now st).2 in
  match record s body now with
  | None => (ingest s body now st).1.(ok) = false /\ st' = st
  | Some msg =>
      (ingest s body now st).1 = acknowledgment
      /\ getLatest s st' = (if is_sample msg then msg else getLatest s st)
      /\ getLatest (other s) st' = getLatest (other s) st
      /\ getHistory s st' = bounded_push (getHistory s st) msg
      /\ getHistory (other s) st' = getHistory (other s) st
      /\ appended st' = appended st ++ [(telemetry_path s, JSON_value msg)]
      /\ clients st' = deliver msg (clients st)
  end.
Proof.
  unfold record, normalize.
  destruct (is_string (get body "event")) eqn:He.
  - destruct (normalizeEvent body now) as [e|m] eqn:Hn.
    + rewrite (ingest_rejected s body now st e); [done|].
      unfold normalize. by rewrite He.
    + rewrite (ingest_event s body now st m He Hn). cbn [fst snd].
      rewrite !remember_latest, remember_history, remember_history_other,
        remember_appended, remember_clients.
      assert (is_sample (VObj (<["source":=VNum (source_number s)]> m)) = false) as ->.
      { unfold is_sample. rewrite get_VObj. rewrite lookup_insert_ne by done.
        by rewrite (normalizeEvent_kind _ _ _ Hn). }
      by destruct s.
  - destruct (normalizeSample body now) as [e|m] eqn:Hn.
    + rewrite (ingest_rejected s body now st e); [done|].
      unfold normalize. by rewrite He.
    + rewrite (ingest_sample s body now st m He Hn). cbn [fst snd].
      rewrite !remember_latest, remember_history, remember_history_other,
        remember_appended, remember_clients.
      assert (is_sample (VObj (<["source":=VNum (source_number s)]> m)) = true) as ->.
      { unfold is_sample. rewrite get_VObj. rewrite lookup_insert_ne by done.
        by rewrite (normalizeSample_kind _ _ _ Hn). }
      by destruct s.
Qed.

(** A body is acknowledged exactly when it has a record. *)
Lemma ingest_ok_iff_record s body now st :
  (ingest s body now st).1.(ok) = true <-> is_Some (record s body now).
Proof.
  pose proof (ingest_effect s body now st) as Heff. cbn zeta in Heff.
  destruct (record s body now) as [msg|].
  - destruct Heff as (-> & _). split; [eauto|done].
  - destruct Heff as (-> & _). split; [done|by intros [? ?]].
Qed.

Lemma object_snoc (l : list (string * value)) k v :
  object (l ++ [(k, v)]) = <[k := v]> (object l).
Proof. unfold object. by rewrite foldl_app. Qed.

Lemma record_fields s body now msg :
  record s body now = Some msg ->
  get msg "kind" = VStr (if is_string (get body "event") then "event" else "sample")
  /\ get msg "source" = VNum (source_number s)
  /\ get msg "ts" = VNum (default now (toNum (get body "ts"))).
Proof.
  unfold record, normalize.
  destruct (is_string (get body "event")) eqn:He.
  - unfold normalizeEvent. rewrite He.
    destruct (get body "event") as [| | | |[|]| |]; try done.
    intros [= <-]. rewrite !get_VObj. by simplify_map_eq.
  - unfold normalizeSample. destruct (toNum (get body "pitch")); [|done].
    intros [= <-]. rewrite !get_VObj. repeat split; object_lookup.
Qed.

Lemma json_number_source s : json_number (source_number s) = VNum (source_number s).
Proof. by destruct s. Qed.

(** *** Validation *)

(** C3. A body that has no non-empty string as [event] and whose [pitch]
    does not coerce to a finite number is rejected with status 400 (the
    reason is "pitch must be a number", or "event must be a string" when
    [event] is the empty string), and the state is left as it was: both
    [latest] records, both histories, the lines appended to the files and
    every socket's messages. *)
Theorem rejected_body_has_no_effect s body now st :
  (forall c e, get body "event" <> VStr (String c e)) ->
  toNum (get body "pitch") = None ->
  let r := (ingest s body now st).1 in
  let st' := (ingest s body now st).2 in
  let reason :=
    if is_string (get body "event")
    then "event must be a string" else "pitch must be a number" in
  ok r = false /\ status r = 400
  /\ payload r = VObj (object [("ok", VBool false); ("error", VStr reason)])
  /\ st' = st
  /\ latest1 st' = latest1 st /\ latest2 st' = latest2 st
  /\ history1 st' = history1 st /\ history2 st' = history2 st
  /\ appended st' = appended st
  /\ clients st' = clients st.
Proof.
  intros He Hp. cbn zeta.
  assert (Hn : normalize body now
               = NormError (if is_string (get body "event")
                            then "event must be a string"
                            else "pitch must be a number")).
  { unfold normalize, normalizeEvent, normalizeSample. rewrite Hp.
    destruct (get body "event") as [| | | |[|c e]| |] eqn:Hev; try done.
    by destruct (He c e). }
  rewrite (ingest_rejected s body now st _ Hn).
  cbn [fst snd]. repeat split.
Qed.

(** C2 (amended). What normalization and ingest do, by the [event] and
    [pitch] of the body: an empty-string [event] is rejected with "event
    must be a string" whatever the pitch; a non-empty string [event] gives
    an event record; otherwise the pitch decides, "pitch must be a number"
    being the reason exactly when [event] is not a string and [pitch] does
    not coerce, and a coercible pitch giving a sample that becomes
    [latest]. *)
Theorem normalization_outcomes s body now st :
  match get body "event", toNum (get body "pitch") with
  | VStr EmptyString, _ =>
      ingest s body now st = (rejection (NormError "event must be a string"), st)
  | VStr (String _ _), _ =>
      exists msg, record s body now = Some msg
        /\ get msg "kind" = VStr "event"
        /\ (ingest s body now st).1 = acknowledgment
  | _, None =>
      ingest s body now st = (rejection (NormError "pitch must be a number"), st)
  | _, Some p =>
      exists msg, record s body now = Some msg
        /\ get msg "kind" = VStr "sample" /\ get msg "pitch" = VNum p
        /\ (ingest s body now st).1 = acknowledgment
        /\ getLatest s (ingest s body now st).2 = msg
  end
  /\ (normalize body now = NormError "pitch must be a number"
      <-> is_string (get body "event") = false /\ toNum (get body "pitch") = None).
Proof.
  assert (Hsample : forall p, is_string (get body "event") = false ->
            toNum (get body "pitch") = Some p ->
            exists msg, record s body now = Some msg
              /\ get msg "kind" = VStr "sample" /\ get msg "pitch" = VNum p
              /\ (ingest s body now st).1 = acknowledgment
              /\ getLatest s (ingest s body now st).2 = msg).
  { intros p He Hp.
    pose proof (ingest_effect s body now st) as Heff. cbn zeta in Heff.
    assert (exists m, normalizeSample body now = NormOk m /\ m !! "pitch" = Some (VNum p))
      as (m & Hn & Hpitch).
    { unfold normalizeSample. rewrite Hp. eexists; split; [done|]. object_lookup. }
    rewrite (record_sample s body now m He Hn) in Heff |- *.
    eexists; split; [done|].
    destruct Heff as (Hr & Hl & _).
    rewrite get_VObj, lookup_insert_ne, (normalizeSample_kind _ _ _ Hn) by done.
    rewrite get_VObj, lookup_insert_ne, Hpitch by done.
    repeat split; [done|].
    rewrite Hl. unfold is_sample.
    by rewrite get_VObj, lookup_insert_ne, (normalizeSample_kind _ _ _ Hn). }
  assert (Hreject : is_string (get body "event") = false ->
            toNum (get body "pitch") = None ->
            ingest s body now st = (rejection (NormError "pitch must be a number"), st)).
  { intros He Hp. apply ingest_rejected.
    unfold normalize, normalizeSample. by rewrite He, Hp. }
  split.
  - destruct (get body "event") as [| | | |[|c e]| |] eqn:He;
      destruct (toNum (get body "pitch")) as [p|] eqn:Hp;
      try (apply Hsample; by rewrite ?He);
      try (apply Hreject; by rewrite ?He).
    + apply ingest_rejected. unfold normalize, normalizeEvent. by rewrite He.
    + apply ingest_rejected. unfold normalize, normalizeEvent. by rewrite He.
    + pose proof (ingest_effect s body now st) as Heff. cbn zeta in Heff.
      destruct (record s body now) as [msg|] eqn:Hrec.
      * exists msg. destruct (record_fields _ _ _ _ Hrec) as (Hk & _).
        rewrite He in Hk. by destruct Heff as (Hr & _).
      * unfold record, normalize, normalizeEvent in Hrec. by rewrite He in Hrec.
    + pose proof (ingest_effect s body now st) as Heff. cbn zeta in Heff.
      destruct (record s body now) as [msg|] eqn:Hrec.
      * exists msg. destruct (record_fields _ _ _ _ Hrec) as (Hk & _).
        rewrite He in Hk. by destruct Heff as (Hr & _).
      * unfold record, normalize, normalizeEvent in Hrec. by rewrite He in Hrec.
  - unfold normalize, normalizeEvent, normalizeSample.
    destruct (get body "event") as [| | | |[|c e]| |] eqn:He; cbn [is_string];
      destruct (toNum (get body "pitch")) as [p|] eqn:Hp;
      split; try done; try (by intros [? ?]).
Qed.

(** *** Coercion of numeric fields *)

Lemma normalizeSample_optional body now m f :
  f ∈ optional_fields ->
  normalizeSample body now = NormOk m ->
  m !! f = Some (num_or_undefined (toNum (get body f))).
Proof.
  unfold normalizeSample. destruct (toNum (get body "pitch")); [|done].
  intros Hf [= <-]. unfold optional_fields in Hf. set_unfold.
  destruct_or!; subst f; object_lookup.
Qed.

Lemma toNum_numeric_string s x :
  isFinite x = true -> falsy_string (trim s) = false -> Number_of_string s = x ->
  toNum (VStr s) = Some x /\ toNum (VNum x) = Some x.
Proof.
  intros Hx Hs Hn. unfold toNum. by rewrite Hs, Hn, Hx.
Qed.


(** C8. When a body is accepted as a sample, an optional numeric property
    that is missing or does not coerce to a finite number is [undefined]
    in the record (so it is left out of its serialisation, and is not the
    number 0); the body is rejected only when its pitch does not coerce. *)
Theorem uncoercible_optional_field_is_omitted s body now st f :
  f ∈ optional_fields ->
  toNum (get body f) = None ->
  is_string (get body "event") = false ->
  is_Some (toNum (get body "pitch")) ->
  exists msg,
    record s body now = Some msg
    /\ (ingest s body now st).1 = acknowledgment
    /\ getLatest s (ingest s body now st).2 = msg
    /\ get msg f = VUndefined
    /\ get msg f <> VNum 0
    /\ get (JSON_value msg) f = VUndefined
    /\ exists o j, msg = VObj o /\ o !! f = Some VUndefined
         /\ JSON_value msg = VObj j /\ j !! f = None.
Proof.
  intros Hf Hnone He [p Hp].
  assert (Hnorm : exists m, normalizeSample body now = NormOk m
                    /\ m !! f = Some VUndefined) .
  { unfold normalizeSample. rewrite Hp. eexists. split; [reflexivity|].
    rewrite (normalizeSample_optional body now _ f Hf).
    - by rewrite Hnone.
    - unfold normalizeSample. by rewrite Hp. }
  destruct Hnorm as (m & Hn & Hm).
  assert (Hne : f <> "source").
  { intros ->. unfold optional_fields in Hf. set_unfold. destruct_or!; discriminate. }
  pose proof (ingest_effect s body now st) as Heff. cbn zeta in Heff.
  rewrite (record_sample s body now m He Hn) in Heff |- *.
  destruct Heff as (Hr & Hl & _).
  assert (Hs : is_sample (VObj (<["source":=VNum (source_number s)]> m)) = true).
  { unfold is_sample. by rewrite get_VObj, lookup_insert_ne, (normalizeSample_kind _ _ _ Hn). }
  rewrite Hs in Hl.
  eexists. split; [reflexivity|]. split; [done|]. split; [done|].
  rewrite get_JSON_value, get_VObj, lookup_insert_ne, Hm by done.
  split; [done|]. split; [done|]. split; [done|].
  do 2 eexists. split; [reflexivity|].
  split; [by rewrite lookup_insert_ne|].
  split; [reflexivity|].
  by rewrite lookup_omap, lookup_insert_ne, Hm.
Qed.

Lemma record_is_object s body now msg :
  record s body now = Some msg -> exists o, msg = VObj o.
Proof.
  unfold record. destruct (normalize body now); [done|].
  intros [= <-]. eauto.
Qed.

Lemma record_serialised s body now msg :
  record s body now = Some msg ->
  get (JSON_value msg) "kind"
  = VStr (if is_string (get body "event") then "event" else "sample")
  /\ get (JSON_value msg) "source" = VNum (source_number s)
  /\ get (JSON_value msg) "ts" = json_number (default now (toNum (get body "ts"))).
Proof.
  intros Hrec.
  destruct (record_fields _ _ _ _ Hrec) as (Hk & Hs & Ht).
  destruct (record_is_object _ _ _ _ Hrec) as [o ->].
  rewrite !get_JSON_value. rewrite !get_VObj in Hk, Hs, Ht.
  destruct (o !! "kind") as [vk|]; [|done].
  destruct (o !! "source") as [vs|]; [|done].
  destruct (o !! "ts") as [vt|]; [|done].
  cbn in Hk, Hs, Ht. subst vk vs vt. cbn.
  by rewrite json_number_source.
Qed.

(** C10. The record an accepted body is stored, logged and broadcast as has
    its [kind], [source] and [ts] set by the server: [kind] by the branch
    taken, [source] by the endpoint, [ts] as the coerced [ts] of the body or
    else the clock reading, whatever the body says under these names.  The
    same holds of its serialisation, where [ts] is that number as JSON
    writes it. *)
Theorem server_sets_kind_source_ts s body now st :
  let st' := (ingest s body now st).2 in
  let kind := VStr (if is_string (get body "event") then "event" else "sample") in
  let ts := default now (toNum (get body "ts")) in
  match record s body now with
  | Some msg =>
      (ingest s body now st).1 = acknowledgment
      /\ get msg "kind" = kind
      /\ get msg "source" = VNum (source_number s)
      /\ get msg "ts" = VNum ts
      /\ get (JSON_value msg) "kind" = kind
      /\ get (JSON_value msg) "source" = VNum (source_number s)
      /\ get (JSON_value msg) "ts" = json_number ts
      /\ getHistory s st' = bounded_push (getHistory s st) msg
      /\ appended st' = appended st ++ [(telemetry_path s, JSON_value msg)]
      /\ clients st' = deliver msg (clients st)
  | None => (ingest s body now st).1.(ok) = false /\ st' = st
  end.
Proof.
  intros st' kind ts.
  pose proof (ingest_effect s body now st) as Heff. cbn zeta in Heff.
  destruct (record s body now) as [msg|] eqn:Hrec; [|done].
  destruct (record_fields _ _ _ _ Hrec) as (Hk & Hs & Ht).
  destruct (record_serialised _ _ _ _ Hrec) as (Hk' & Hs' & Ht').
  destruct Heff as (Hr & _ & _ & Hh & _ & Ha & Hc).
  by repeat split.
Qed.

(** *** The store along a run *)

Lemma run_snoc st l i : run st (l ++ [i]) = step (run st l) i.
Proof. unfold run. by rewrite foldl_app. Qed.

Lemma post_record_same s body now :
  post_record s (Post s body now) = record s body now.
Proof. by destruct s. Qed.

Lemma post_record_other s body now :
  post_record (other s) (Post s body now) = None.
Proof. by destruct s. Qed.

Lemma source_cases s s' : s' = s \/ s = other s'.
Proof. destruct s, s'; auto. Qed.

Lemma step_history s st i :
  getHistory s (step st i)
  = match post_record s i with
    | Some msg => bounded_push (getHistory s st) msg
    | None => getHistory s st
    end.
Proof.
  destruct i as [s' body now| |j]; [|by destruct s..].
  cbn [step].
  pose proof (ingest_effect s' body now st) as Heff. cbn zeta in Heff.
  destruct (source_cases s s') as [->| ->].
  - rewrite post_record_same.
    destruct (record s body now); [by destruct Heff as (_&_&_&?&_)|].
    destruct Heff as [_ ->]. done.
  - rewrite post_record_other.
    destruct (record s' body now); [by destruct Heff as (_&_&_&_&?&_)|].
    destruct Heff as [_ ->]. done.
Qed.

Lemma step_latest s st i :
  getLatest s (step st i)
  = match post_record s i with
    | Some msg => if is_sample msg then msg else getLatest s st
    | None => getLatest s st
    end.
Proof.
  destruct i as [s' body now| |j]; [|by destruct s..].
  cbn [step].
  pose proof (ingest_effect s' body now st) as Heff. cbn zeta in Heff.
  destruct (source_cases s s') as [->| ->].
  - rewrite post_record_same.
    destruct (record s body now); [by destruct Heff as (_&?&_)|].
    destruct Heff as [_ ->]. done.
  - rewrite post_record_other.
    destruct (record s' body now); [by destruct Heff as (_&_&?&_)|].
    destruct Heff as [_ ->]. done.
Qed.

Lemma accepted_snoc s l i :
  accepted s (l ++ [i])
  = accepted s l ++ match post_record s i with Some msg => [msg] | None => [] end.
Proof.
  unfold accepted. rewrite omap_app. cbn. by destruct (post_record s i).
Qed.

Lemma lastn_length {A} n (l : list A) : length (lastn n l) = (length l `min` n)%nat.
Proof. unfold lastn. rewrite length_drop. lia. Qed.

Lemma lastn_snoc {A} n (l : list A) x :
  lastn n (lastn n l ++ [x]) = lastn n (l ++ [x]).
Proof.
  unfold lastn. rewrite !length_app, length_drop. cbn [length].
  destruct (decide (n = 0)%nat) as [->|Hn].
  - rewrite !drop_ge; [done|rewrite length_app; cbn; lia|].
    rewrite length_app, length_drop. cbn. lia.
  - destruct (decide (length l <= n)%nat) as [Hle|Hgt].
    + replace (length l - n)%nat with 0%nat by lia. cbn [drop].
      by replace (length l - 0)%nat with (length l) by lia.
    + rewrite (drop_app_le l) by lia.
      replace (length l - (length l - n) + 1 - n)%nat with 1%nat by lia.
      rewrite (drop_app_le (drop _ l)); [|rewrite length_drop; lia].
      rewrite drop_drop. f_equal. f_equal. lia.
Qed.

Lemma bounded_push_lastn h msg :
  0 <= MAX_BUFFER ->
  (length h <= Z.to_nat MAX_BUFFER)%nat ->
  bounded_push h msg = lastn (Z.to_nat MAX_BUFFER) (h ++ [msg]).
Proof.
  intros Hmax Hlen. unfold bounded_push, lastn.
  rewrite length_app. cbn [length].
  destruct (Z.ltb_spec MAX_BUFFER (Z.of_nat (length h + 1))).
  - replace (length h + 1 - Z.to_nat MAX_BUFFER)%nat with 1%nat by lia.
    by destruct (h ++ [msg]).
  - by replace (length h + 1 - Z.to_nat MAX_BUFFER)%nat with 0%nat by lia.
Qed.

Lemma run_history s t1 t2 l :
  0 <= MAX_BUFFER ->
  getHistory s (run (init t1 t2) l) = lastn (Z.to_nat MAX_BUFFER) (accepted s l).
Proof.
  intros Hmax. induction l as [|i l IH] using rev_ind.
  - by destruct s.
  - rewrite run_snoc, step_history, accepted_snoc, IH.
    destruct (post_record s i) as [msg|]; [|by rewrite app_nil_r].
    rewrite bounded_push_lastn; [|done|rewrite lastn_length; lia].
    apply lastn_snoc.
Qed.

(** C4. From start-up, whatever is posted to either endpoint and whichever
    sockets come and go, the history of a source is the last [MAX_BUFFER]
    records accepted for it, in acceptance order: its length is the smaller
    of their number and [MAX_BUFFER], and once [MAX_BUFFER + k] records have
    been accepted the first [k] are gone. *)
Theorem history_is_last_MAX_BUFFER_accepted s t1 t2 l :
  0 <= MAX_BUFFER ->
  let acc := accepted s l in
  let h := getHistory s (run (init t1 t2) l) in
  h = drop (length acc - Z.to_nat MAX_BUFFER) acc
  /\ Z.of_nat (length h) = Z.min (Z.of_nat (length acc)) MAX_BUFFER
  /\ forall k : nat,
       length acc = (Z.to_nat MAX_BUFFER + k)%nat ->
       Z.of_nat (length h) = MAX_BUFFER /\ h = drop k acc.
Proof.
  intros Hmax acc h. subst h.
  rewrite (run_history s t1 t2 l Hmax). fold acc.
  split; [done|]. split.
  - rewrite lastn_length. lia.
  - intros k Hk. rewrite lastn_length. split; [lia|].
    unfold lastn. f_equal. lia.
Qed.

Lemma filter_snoc {A} (f : A -> bool) l x :
  List.filter f (l ++ [x]) = List.filter f l ++ (if f x then [x] else []).
Proof. by rewrite List.filter_app. Qed.

Lemma run_latest s t1 t2 l :
  getLatest s (run (init t1 t2) l)
  = default (getLatest s (init t1 t2)) (last (List.filter is_sample (accepted s l))).
Proof.
  induction l as [|i l IH] using rev_ind; [done|].
  rewrite run_snoc, step_latest, accepted_snoc, IH.
  destruct (post_record s i) as [msg|]; [|by rewrite app_nil_r].
  rewrite filter_snoc.
  destruct (is_sample msg); [by rewrite last_snoc|by rewrite app_nil_r].
Qed.


(** *** Sockets along a run *)

Lemma step_clients st i :
  clients (step st i)
  = match i with
    | Post s body now =>
        match record s body now with
        | Some msg => deliver msg (clients st)
        | None => clients st
        end
    | Connect =>
        clients st ++ [Client OPEN [JSON_value (latest1 st); JSON_value (latest2 st)]]
    | Close j => alter (fun c => Client CLOSED (received c)) j (clients st)
    end.
Proof.
  destruct i as [s body now| |j]; try done.
  cbn [step].
  pose proof (ingest_effect s body now st) as Heff. cbn zeta in Heff.
  destruct (record s body now); [by destruct Heff as (_&_&_&_&_&_&?)|].
  by destruct Heff as [_ ->].
Qed.

Lemma step_appended st i :
  appended (step st i)
  = match i with
    | Post s body now =>
        match record s body now with
        | Some msg => appended st ++ [(telemetry_path s, JSON_value msg)]
        | None => appended st
        end
    | _ => appended st
    end.
Proof.
  destruct i as [s body now| |j]; try done.
  cbn [step].
  pose proof (ingest_effect s body now st) as Heff. cbn zeta in Heff.
  destruct (record s body now); [by destruct Heff as (_&_&_&_&_&?&_)|].
  by destruct Heff as [_ ->].
Qed.

(** A closed socket stays closed and receives nothing more. *)
Lemma run_closed_client l : forall st i c,
  clients st !! i = Some c -> is_open c = false ->
  exists c', clients (run st l) !! i = Some c'
    /\ is_open c' = false /\ received c' = received c.
Proof.
  induction l as [|x l IH]; intros st i c Hc Hclosed; [by exists c|].
  cbn [run foldl]. fold (run (step st x) l).
  assert (exists c1, clients (step st x) !! i = Some c1
            /\ is_open c1 = false /\ received c1 = received c) as (c1 & H1 & Ho & Hr).
  { rewrite step_clients. destruct x as [s body now| |j].
    - destruct (record s body now); [|by exists c].
      unfold deliver. rewrite list_lookup_fmap, Hc. cbn. rewrite Hclosed. by exists c.
    - exists c. by rewrite lookup_app_l by (by eapply lookup_lt_Some).
    - destruct (decide (i = j)) as [<-|Hne].
      + rewrite list_lookup_alter_eq, Hc. cbn. by eexists.
      + exists c. rewrite list_lookup_alter_ne by (intros ?; by subst). done. }
  destruct (IH _ _ _ H1 Ho) as (c' & ? & ? & ?).
  exists c'. repeat split; congruence.
Qed.

(** An open socket receives the accepted records, in order, until it closes. *)
Lemma run_open_client l : forall st i c,
  clients st !! i = Some c -> is_open c = true ->
  exists c', clients (run st l) !! i = Some c'
    /\ received c' = received c ++ (JSON_value <$> accepted_all (until_close i l)).
Proof.
  induction l as [|x l IH]; intros st i c Hc Hopen.
  { exists c. by rewrite app_nil_r. }
  cbn [run foldl]. fold (run (step st x) l).
  destruct x as [s body now| |j].
  - assert (exists c1, clients (step st (Post s body now)) !! i = Some c1
              /\ is_open c1 = true
              /\ received c1 = received c
                   ++ (JSON_value <$> match record s body now with
                                      | Some msg => [msg] | None => [] end))
      as (c1 & H1 & Ho & Hr).
    { rewrite step_clients. destruct (record s body now) as [msg|].
      - unfold deliver. rewrite list_lookup_fmap, Hc. cbn. rewrite Hopen.
        eexists. split; [done|]. split; [|done]. unfold is_open in *. by destruct c.
      - exists c. by rewrite app_nil_r. }
    destruct (IH _ _ _ H1 Ho) as (c' & Hc' & Hr').
    exists c'. split; [done|]. rewrite Hr', Hr, <- app_assoc. f_equal.
    cbn [until_close]. unfold accepted_all. cbn [omap list_omap].
    by destruct (record s body now).
  - assert (clients (step st Connect) !! i = Some c) as H1.
    { rewrite step_clients. by rewrite lookup_app_l by (by eapply lookup_lt_Some). }
    destruct (IH _ _ _ H1 Hopen) as (c' & Hc' & Hr').
    exists c'. split; [done|]. by rewrite Hr'.
  - cbn [until_close]. destruct (Nat.eqb_spec i j) as [<-|Hne].
    + assert (clients (step st (Close i)) !! i = Some (Client CLOSED (received c))) as H1.
      { rewrite step_clients. by rewrite list_lookup_alter_eq, Hc. }
      destruct (run_closed_client l _ _ _ H1 eq_refl) as (c' & Hc' & _ & Hr').
      exists c'. split; [done|]. by rewrite Hr', app_nil_r.
    + assert (clients (step st (Close j)) !! i = Some c) as H1.
      { rewrite step_clients. rewrite list_lookup_alter_ne by (intros ?; by subst). done. }
      destruct (IH _ _ _ H1 Hopen) as (c' & Hc' & Hr').
      exists c'. split; [done|]. by rewrite Hr'.
Qed.

(** C6. A socket that connects is first sent [latest1], then [latest2], as
    they are at that moment; whatever it is sent afterwards comes after
    these two, and is exactly the records accepted (for either source)
    from then on, in order, until the socket closes. *)
Theorem catch_up_precedes_broadcasts st l :
  let i := length (clients st) in
  exists c,
    clients (on_connection st) !! i
    = Some (Client OPEN [JSON_value (latest1 st); JSON_value (latest2 st)])
    /\ clients (run (on_connection st) l) !! i = Some c
    /\ received c
       = JSON_value (latest1 st) :: JSON_value (latest2 st)
           :: (JSON_value <$> accepted_all (until_close i l)).
Proof.
  intros i.
  assert (H0 : clients (on_connection st) !! i
               = Some (Client OPEN [JSON_value (latest1 st); JSON_value (latest2 st)])).
  { unfold on_connection, send. cbn. subst i. by rewrite list_lookup_middle. }
  destruct (run_open_client l _ _ _ H0 eq_refl) as (c & Hc & Hr).
  exists c. by repeat split.
Qed.

(** *** Tags of the serialised records *)

Lemma json_number_defined f : json_number f <> VUndefined.
Proof. unfold json_number. by repeat case_match. Qed.

Lemma record_tagged s body now msg :
  record s body now = Some msg -> tagged (JSON_value msg).
Proof.
  intros Hrec. destruct (record_serialised _ _ _ _ Hrec) as (Hk & Hs & Ht).
  unfold tagged. rewrite Hk, Hs, Ht. split; [by destruct (is_string _); auto|].
  split; [destruct s; auto|apply json_number_defined].
Qed.

Lemma record_latest_shape s body now msg :
  record s body now = Some msg -> is_sample msg = true ->
  latest_shape s (JSON_value msg).
Proof.
  intros Hrec Hsample.
  destruct (record_serialised _ _ _ _ Hrec) as (Hk & Hs & Ht).
  destruct (record_fields _ _ _ _ Hrec) as (Hk' & _).
  unfold latest_shape. rewrite Hk, Hs, Ht.
  unfold is_sample in Hsample. rewrite Hk' in Hsample.
  destruct (is_string (get body "event")); [done|].
  split; [auto|]. split; [done|apply json_number_defined].
Qed.

Lemma init_latest_shape s t1 t2 :
  latest_shape s (JSON_value (getLatest s (init t1 t2))).
Proof.
  unfold latest_shape. destruct s; cbn [getLatest init latest1 latest2];
    rewrite !get_JSON_value.
  - unfold object; simpl foldl; simplify_map_eq. cbn.
    split; [auto|]. split; [done|apply json_number_defined].
  - unfold object; simpl foldl; simplify_map_eq. cbn.
    split; [auto|]. split; [done|apply json_number_defined].
Qed.

Lemma run_latest_shape s t1 t2 l :
  latest_shape s (JSON_value (getLatest s (run (init t1 t2) l))).
Proof.
  induction l as [|i l IH] using rev_ind; [apply init_latest_shape|].
  rewrite run_snoc, step_latest.
  destruct (post_record s i) as [msg|] eqn:Hp; [|done].
  destruct (is_sample msg) eqn:Hs; [|done].
  destruct i as [s' body now| |j]; try done.
  destruct (source_cases s s') as [->| ->].
  - rewrite post_record_same in Hp. by eapply record_latest_shape.
  - by rewrite post_record_other in Hp.
Qed.

Lemma deliver_socket_shape msg cs :
  tagged (JSON_value msg) -> Forall socket_shape cs -> Forall socket_shape (deliver msg cs).
Proof.
  intros Hmsg Hcs. unfold deliver. apply Forall_fmap.
  eapply Forall_impl; [exact Hcs|]. intros c (c1 & c2 & rest & Hr & H1 & H2 & Hrest).
  cbn. destruct (is_open c); [|by exists c1, c2, rest].
  exists c1, c2, (rest ++ [JSON_value msg]). cbn. rewrite Hr.
  split; [done|]. split; [done|]. split; [done|].
  apply Forall_app. split; [done|]. by constructor.
Qed.


(** *** Order of finite numbers

    The comparator of [sort] subtracts two [ts]; [sort] looks at the sign
    of the result.  On finite doubles the difference is positive exactly
    when the first operand is the larger one: the exact difference is an
    integer multiple of the smaller operand's unit, so rounding it cannot
    reach zero.  This is derived from the specification of the primitive
    operations ([sub_spec], [ltb_spec], [leb_spec]). *)

Lemma digits2_pos_bounds p :
  2 ^ (Zpos (digits2_pos p) - 1) <= Zpos p < 2 ^ Zpos (digits2_pos p).
Proof.
  induction p as [p IH|p IH|]; cbn [digits2_pos].
  - rewrite Pos2Z.inj_succ.
    replace (Z.succ (Zpos (digits2_pos p)) - 1) with (Z.succ (Zpos (digits2_pos p) - 1)) by lia.
    rewrite !Z.pow_succ_r by lia. lia.
  - rewrite Pos2Z.inj_succ.
    replace (Z.succ (Zpos (digits2_pos p)) - 1) with (Z.succ (Zpos (digits2_pos p) - 1)) by lia.
    rewrite !Z.pow_succ_r by lia. lia.
  - cbn. lia.
Qed.

Lemma shr_1_m mrs : 0 <= shr_m mrs -> shr_m (shr_1 mrs) = shr_m mrs / 2.
Proof.
  destruct mrs as [m r s]. cbn [shr_m shr_1]. intros Hm.
  rewrite <- Z.div2_div.
  destruct m as [|[p|p|]|p]; cbn [shr_m]; try reflexivity; lia.
Qed.

Lemma shr_m_iter p : forall mrs,
  0 <= shr_m mrs -> shr_m (SpecFloat.iter_pos shr_1 p mrs) = shr_m mrs / 2 ^ Zpos p.
Proof.
  induction p as [p IH|p IH|]; intros mrs Hm; cbn [SpecFloat.iter_pos].
  - assert (0 <= shr_m (shr_1 mrs)) by (rewrite shr_1_m by done; apply Z.div_pos; lia).
    assert (0 < 2 ^ Zpos p) by (apply Z.pow_pos_nonneg; lia).
    rewrite IH.
    + rewrite IH by done. rewrite shr_1_m by done.
      rewrite !Z.div_div by lia. f_equal.
      replace (Zpos p~1) with (1 + Zpos p + Zpos p) by lia.
      rewrite !Z.pow_add_r by lia. lia.
    + rewrite IH by done. apply Z.div_pos; lia.
  - assert (0 < 2 ^ Zpos p) by (apply Z.pow_pos_nonneg; lia).
    rewrite IH.
    + rewrite IH by done. rewrite !Z.div_div by lia. f_equal.
      replace (Zpos p~0) with (Zpos p + Zpos p) by lia.
      rewrite !Z.pow_add_r by lia. lia.
    + rewrite IH by done. apply Z.div_pos; lia.
  - rewrite shr_1_m by done. done.
Qed.


Lemma fexp_ge_emin e : emin <= fexp prec emax e.
Proof. unfold fexp. lia. Qed.

(** Shifting a positive mantissa to its canonical exponent leaves it positive. *)
Lemma shr_fexp_pos m e l :
  0 < m -> emin <= e ->
  0 < shr_m (shr_fexp prec emax m e l).1 /\ emin <= (shr_fexp prec emax m e l).2.
Proof.
  intros Hm He. unfold shr_fexp, shr.
  destruct m as [|p|p]; try lia. cbn [Zdigits2].
  pose proof (digits2_pos_bounds p) as Hd.
  set (d := Zpos (digits2_pos p)) in *.
  assert (Hrec : shr_m (shr_record_of_loc (Zpos p) l) = Zpos p).
  { by destruct l as [|[]]. }
  destruct (fexp prec emax (d + e) - e) as [|n|n] eqn:Hn; cbn [fst snd].
  - rewrite Hrec. lia.
  - rewrite shr_m_iter by (rewrite Hrec; lia). rewrite Hrec.
    assert (Hfe : fexp prec emax (d + e) = d + e - prec).
    { unfold fexp in *. lia. }
    assert (Hnd : Zpos n = d - prec) by lia.
    split; [|lia].
    apply Z.div_str_pos. split; [apply Z.pow_pos_nonneg; lia|].
    rewrite Hnd. transitivity (2 ^ (d - 1)); [|lia].
    apply Z.pow_le_mono_r; [lia|]. unfold prec. lia.
  - rewrite Hrec. lia.
Qed.

Lemma round_nearest_even_ge m l : m <= round_nearest_even m l.
Proof. destruct l as [|[]]; cbn; try lia. destruct (Z.even m); lia. Qed.

(** Rounding a positive mantissa never gives a zero or a NaN. *)
Lemma binary_round_aux_pos sx m e l :
  0 < m -> emin <= e ->
  (exists m' e', binary_round_aux prec emax sx m e l = S754_finite sx m' e')
  \/ binary_round_aux prec emax sx m e l = S754_infinity sx.
Proof.
  intros Hm He. unfold binary_round_aux.
  destruct (shr_fexp_pos m e l Hm He) as [Hm1 He1].
  destruct (shr_fexp prec emax m e l) as [mrs1 e1]. cbn [fst snd] in *.
  pose proof (round_nearest_even_ge (shr_m mrs1) (loc_of_shr_record mrs1)) as Hr.
  set (m2 := round_nearest_even (shr_m mrs1) (loc_of_shr_record mrs1)) in *.
  assert (Hm2 : 0 < m2) by lia.
  destruct (shr_fexp_pos m2 e1 loc_Exact Hm2 He1) as [Hm3 He3].
  destruct (shr_fexp prec emax m2 e1 loc_Exact) as [mrs3 e3]. cbn [fst snd] in *.
  destruct (shr_m mrs3) as [|p|p]; try lia.
  destruct (e3 <=? emax - prec); eauto.
Qed.

Lemma binary_round_pos sx m e :
  emin <= e ->
  (exists m' e', binary_round prec emax sx m e = S754_finite sx m' e')
  \/ binary_round prec emax sx m e = S754_infinity sx.
Proof.
  intros He. unfold binary_round.
  destruct (shl_align m e (fexp prec emax (Zpos (digits2_pos m) + e))) as [mz ez] eqn:Hs.
  apply binary_round_aux_pos; [lia|].
  unfold shl_align in Hs.
  pose proof (fexp_ge_emin (Zpos (digits2_pos m) + e)).
  destruct (fexp prec emax (Zpos (digits2_pos m) + e) - e); injection Hs as <- <-; lia.
Qed.

(** The sign of a normalized integer: what [0 < .] says of the result. *)
Lemma SFltb_zero_binary_normalize d e :
  emin <= e ->
  SFltb (S754_zero false) (binary_normalize prec emax d e false) = (0 <? d).
Proof.
  intros He. unfold binary_normalize.
  destruct d as [|p|p].
  - reflexivity.
  - destruct (binary_round_pos false p e He) as [(m' & e' & ->)| ->]; reflexivity.
  - destruct (binary_round_pos true p e He) as [(m' & e' & ->)| ->]; reflexivity.
Qed.

Lemma canonical_mantissa_bounds m e :
  canonical_mantissa prec emax m e = true ->
  emin <= e /\ Zpos m < 2 ^ prec /\ (emin < e -> 2 ^ (prec - 1) <= Zpos m).
Proof.
  unfold canonical_mantissa, fexp. intros H%Z.eqb_eq.
  pose proof (digits2_pos_bounds m) as [Hlo Hhi].
  set (d := Zpos (digits2_pos m)) in *.
  split; [lia|]. split.
  - eapply Z.lt_le_trans; [exact Hhi|]. apply Z.pow_le_mono_r; lia.
  - intros He. replace d with prec in Hlo by lia. done.
Qed.

Lemma shl_align_fst m e e' :
  e' <= e -> Zpos (shl_align m e e').1 = Zpos m * 2 ^ (e - e').
Proof.
  intros He. unfold shl_align.
  destruct (e' - e) as [|d|d] eqn:Hd; cbn [fst]; try lia.
  - replace (e - e') with 0 by lia. lia.
  - replace (e - e') with (Zpos d) by lia.
    change (Pos.iter xO m d) with (shift_pos d m).
    rewrite shift_pos_correct. change (Zpower_pos 2 d) with (2 ^ Zpos d). lia.
Qed.

(** For canonical mantissas a larger exponent means a larger magnitude. *)
Lemma canonical_magnitude m1 e1 m2 e2 :
  canonical_mantissa prec emax m1 e1 = true ->
  canonical_mantissa prec emax m2 e2 = true ->
  e2 < e1 -> Zpos m2 < Zpos m1 * 2 ^ (e1 - e2).
Proof.
  intros (H1 & _ & Hlo)%canonical_mantissa_bounds (H2 & Hhi & _)%canonical_mantissa_bounds He.
  specialize (Hlo ltac:(lia)).
  assert (2 ^ 1 <= 2 ^ (e1 - e2)) by (apply Z.pow_le_mono_r; lia).
  assert (2 ^ prec = 2 ^ (prec - 1) * 2 ^ 1) as Hp by reflexivity.
  nia.
Qed.

(** The sign of the exact difference of two finite numbers is the outcome
    of their comparison. *)
Lemma difference_sign sx mx ex sy my ey :
  canonical_mantissa prec emax mx ex = true ->
  canonical_mantissa prec emax my ey = true ->
  let ez := Z.min ex ey in
  (0 <? cond_Zopp sx (Zpos (shl_align mx ex ez).1)
        - cond_Zopp sy (Zpos (shl_align my ey ez).1))
  = SFltb (S754_finite sy my ey) (S754_finite sx mx ex).
Proof.
  intros Hx Hy ez. subst ez.
  rewrite !shl_align_fst by lia.
  unfold SFltb, SFcompare.
  destruct (Z.compare_spec ey ex) as [Heq|Hlt|Hgt].
  - subst ey. rewrite Z.min_id, Z.sub_diag, !Z.mul_1_r.
    change (Pos.compare_cont Eq my mx) with (Pos.compare my mx).
    destruct (Pos.compare_spec my mx) as [Hm|Hm|Hm];
      destruct sx, sy; cbn [cond_Zopp CompOpp]; lia.
  - pose proof (canonical_magnitude mx ex my ey Hx Hy Hlt).
    rewrite Z.min_r, Z.sub_diag, Z.mul_1_r by lia.
    destruct sx, sy; cbn [cond_Zopp]; lia.
  - pose proof (canonical_magnitude my ey mx ex Hy Hx ltac:(lia)).
    rewrite Z.min_l, Z.sub_diag, Z.mul_1_r by lia.
    destruct sx, sy; cbn [cond_Zopp]; lia.
Qed.

(** [0 < x - y] exactly when [y < x], on finite numbers. *)
Lemma SFsub_sign x y :
  valid_binary x = true -> valid_binary y = true ->
  is_finite_SF x = true -> is_finite_SF y = true ->
  SFltb (S754_zero false) (SFsub prec emax x y) = SFltb y x.
Proof.
  intros Vx Vy Fx Fy.
  destruct x as [sx|sx| |sx mx ex], y as [sy|sy| |sy my ey]; try done.
  - by destruct sx, sy.
  - by destruct sy.
  - cbn in Vx, Vy. apply andb_true_iff in Vx as [Vx _], Vy as [Vy _].
    cbn [SFsub]. rewrite SFltb_zero_binary_normalize.
    + by apply difference_sign.
    + apply canonical_mantissa_bounds in Vx, Vy. lia.
Qed.

Lemma SFcompare_antisym x y :
  is_finite_SF x = true -> is_finite_SF y = true ->
  SFcompare y x = CompOpp <$> SFcompare x y.
Proof.
  intros Fx Fy.
  destruct x as [sx|sx| |sx mx ex], y as [sy|sy| |sy my ey]; try done;
    cbn; try (by destruct sx); try (by destruct sy).
  change (Pos.compare_cont Eq my mx) with (Pos.compare my mx).
  change (Pos.compare_cont Eq mx my) with (Pos.compare mx my).
  rewrite (Z.compare_antisym ex ey), (Pos.compare_antisym mx my).
  destruct sx, sy; try done; destruct (ex ?= ey); try done;
    by destruct (mx ?= my)%positive.
Qed.


(** *** On primitive floats *)

Lemma is_finite_Prim2SF x : is_finite x = true -> is_finite_SF (Prim2SF x) = true.
Proof.
  unfold is_finite, Prim2SF. intros H%negb_true_iff%orb_false_iff. destruct H as [-> ->].
  destruct (is_zero x); [done|].
  destruct (Z.frexp x) as [r e].
  destruct (shr_fexp _ _ _ _ _) as [mrs e'].
  by destruct (shr_m mrs).
Qed.

Lemma sub_positive x y :
  is_finite x = true -> is_finite y = true ->
  (0 <? x - y)%float = (y <? x)%float.
Proof.
  intros Fx Fy. rewrite !ltb_spec, sub_spec.
  change (Prim2SF 0) with (S754_zero false).
  apply SFsub_sign; auto using Prim2SF_valid, is_finite_Prim2SF.
Qed.

Lemma ltb_leb x y : (x <? y)%float = true -> (x <=? y)%float = true.
Proof.
  rewrite ltb_spec, leb_spec. unfold SFltb, SFleb.
  by destruct (SFcompare _ _) as [[]|].
Qed.

Lemma SFcompare_finite x y :
  is_finite_SF x = true -> is_finite_SF y = true -> is_Some (SFcompare x y).
Proof. destruct x, y; try done; cbn; eauto. Qed.

Lemma not_ltb_leb x y :
  is_finite x = true -> is_finite y = true ->
  (x <? y)%float = false -> (y <=? x)%float = true.
Proof.
  intros Fx%is_finite_Prim2SF Fy%is_finite_Prim2SF.
  rewrite ltb_spec, leb_spec. unfold SFltb, SFleb.
  rewrite (SFcompare_antisym (Prim2SF x) (Prim2SF y)) by done.
  destruct (SFcompare_finite _ _ Fx Fy) as [c ->]. by destruct c.
Qed.

Lemma SFleb_trans x y z :
  is_finite_SF x = true -> is_finite_SF y = true -> is_finite_SF z = true ->
  SFleb x y = true -> SFleb y z = true -> SFleb x z = true.
Proof.
  unfold SFleb.
  destruct x as [sx|sx| |sx mx ex], y as [sy|sy| |sy my ey], z as [sz|sz| |sz mz ez];
    try done; cbn [SFcompare];
    change (Pos.compare_cont Eq) with Pos.compare;
    intros _ _ _;
    try (destruct sx; done); try (destruct sy; done); try (destruct sz; done);
    try (destruct sx, sy; done); try (destruct sy, sz; done); try (destruct sx, sz; done).
  all: destruct sx, sy, sz; try done.
  all: destruct (Z.compare_spec ex ey), (Z.compare_spec ey ez), (Z.compare_spec ex ez);
    try done; try lia.
  all: destruct (Pos.compare_spec mx my), (Pos.compare_spec my mz), (Pos.compare_spec mx mz);
    try done; lia.
Qed.

Lemma leb_trans x y z :
  is_finite x = true -> is_finite y = true -> is_finite z = true ->
  (x <=? y)%float = true -> (y <=? z)%float = true -> (x <=? z)%float = true.
Proof.
  intros Fx%is_finite_Prim2SF Fy%is_finite_Prim2SF Fz%is_finite_Prim2SF.
  rewrite !leb_spec. by apply SFleb_trans.
Qed.


(** *** The analysis window *)

Lemma has_finite_ts_ts_of x :
  has_finite_ts x = true -> is_finite (ts_of x) = true.
Proof.
  unfold has_finite_ts, ts_of. by destruct (get x "ts").
Qed.

Lemma compareFn_positive x y :
  has_finite_ts x = true -> has_finite_ts y = true ->
  (0 <? compareFn x y)%float = (ts_of y <? ts_of x)%float.
Proof.
  intros Hx%has_finite_ts_ts_of Hy%has_finite_ts_ts_of.
  by apply sub_positive.
Qed.

Lemma sort_insert_Permutation f x l : sort_insert f x l ≡ₚ x :: l.
Proof.
  induction l as [|y l IH]; cbn [sort_insert]; [done|].
  destruct (0 <? f x y)%float; [|done].
  rewrite IH. apply Permutation_swap.
Qed.

Lemma sorted_by_Permutation f l : sorted_by f l ≡ₚ l.
Proof.
  induction l as [|x l IH]; [done|].
  unfold sorted_by. cbn [foldr]. fold (sorted_by f l). by rewrite sort_insert_Permutation, IH.
Qed.

Lemma sort_insert_StronglySorted x l :
  has_finite_ts x = true -> Forall (fun y => has_finite_ts y = true) l ->
  StronglySorted ts_le l -> StronglySorted ts_le (sort_insert compareFn x l).
Proof.
  intros Hx Hl Hs. induction l as [|y l IH]; cbn [sort_insert].
  { repeat constructor. }
  apply Forall_cons in Hl as [Hy Hl]. apply StronglySorted_inv in Hs as [Hs Hall].
  rewrite compareFn_positive by done.
  destruct (ts_of y <? ts_of x)%float eqn:Hlt.
  - constructor; [by apply IH|].
    rewrite sort_insert_Permutation. constructor; [by apply ltb_leb|done].
  - assert (Hxy : ts_le x y) by (apply not_ltb_leb; auto using has_finite_ts_ts_of).
    constructor; [by constructor|]. constructor; [done|].
    rewrite Forall_forall in Hall, Hl |- *. intros z Hz.
    eapply leb_trans; [..|exact Hxy|by apply Hall]; auto using has_finite_ts_ts_of.
Qed.

Lemma sorted_by_StronglySorted l :
  Forall (fun y => has_finite_ts y = true) l ->
  StronglySorted ts_le (sorted_by compareFn l).
Proof.
  induction l as [|x l IH]; intros Hl; [constructor|].
  apply Forall_cons in Hl as [Hx Hl].
  unfold sorted_by. cbn [foldr]. fold (sorted_by compareFn l).
  apply sort_insert_StronglySorted; [done| |by apply IH].
  by rewrite sorted_by_Permutation.
Qed.

Lemma pickWindow_lastn w arr :
  0 <= w -> pickWindow w arr = lastn (Z.to_nat w) arr.
Proof. intros Hw. unfold pickWindow, lastn. f_equal. lia. Qed.

Lemma Forall_lastn {A} (P : A -> Prop) n l : Forall P l -> Forall P (lastn n l).
Proof. apply Forall_drop. Qed.

Lemma Forall_filter_bool {A} (P : A -> Prop) f l : Forall P l -> Forall P (List.filter f l).
Proof.
  rewrite !Forall_forall. intros H x Hx%list_elem_of_In%List.filter_In.
  apply H, list_elem_of_In, Hx.
Qed.

Lemma filter_all_true {A} (f : A -> bool) l : Forall (fun x => f x = true) (List.filter f l).
Proof.
  apply Forall_forall. intros x Hx%list_elem_of_In%List.filter_In. apply Hx.
Qed.

(** The records kept in the histories carry a finite numeric [ts] as long as
    the clock readings are finite. *)
Lemma record_has_finite_ts s body now msg :
  record s body now = Some msg -> isFinite now = true -> has_finite_ts msg = true.
Proof.
  intros Hrec Hnow. destruct (record_fields _ _ _ _ Hrec) as (_ & _ & Hts).
  unfold has_finite_ts. rewrite Hts.
  destruct (get body "ts") as [| | |f|t| |]; cbn; try done.
  - by destruct (isFinite f) eqn:Hf.
  - by destruct (negb _ && isFinite (Number_of_string t)) eqn:Hf;
      [apply andb_true_iff in Hf as [_ ?]|].
Qed.

Lemma Forall_bounded_push (P : value -> Prop) h msg :
  Forall P h -> P msg -> Forall P (bounded_push h msg).
Proof.
  intros Hh Hm.
  assert (H : Forall P (h ++ [msg])) by (apply Forall_app; split; [done|by constructor]).
  unfold bounded_push. destruct (_ <? _); [|done].
  destruct H; [constructor|done].
Qed.

Lemma run_histories_finite_ts s t1 t2 l :
  Forall (fun i => finite_clock i = true) l ->
  Forall (fun x => has_finite_ts x = true) (getHistory s (run (init t1 t2) l)).
Proof.
  induction l as [|i l IH] using rev_ind; intros Hl.
  { destruct s; constructor. }
  apply Forall_app in Hl as [Hl Hi]. rewrite Forall_singleton in Hi.
  rewrite run_snoc, step_history.
  destruct (post_record s i) as [msg|] eqn:Hp; [|by apply IH].
  apply Forall_bounded_push; [by apply IH|].
  destruct i as [s' body now| |j]; try done.
  destruct (source_cases s s') as [->| ->].
  - rewrite post_record_same in Hp.
    eapply record_has_finite_ts; [exact Hp|exact Hi].
  - by rewrite post_record_other in Hp.
Qed.

Lemma deref_alloc_old a h r :
  (r < length h)%nat -> deref r (alloc a h).2 = deref r h.
Proof. intros Hr. unfold deref, alloc. cbn. by rewrite lookup_app_l. Qed.

Lemma deref_alloc_new a h : deref (alloc a h).1 (alloc a h).2 = a.
Proof. unfold deref, alloc. cbn. by rewrite list_lookup_middle. Qed.

(** On the store, the handler computes [combinedSamples] in an array of its
    own and leaves every array that was there before as it was. *)
Lemma combinedSamples_in_spec body st r1 r2 h :
  (r1 < length h)%nat -> (r2 < length h)%nat ->
  deref r1 h = history1 st -> deref r2 h = history2 st ->
  let out := combinedSamples_in body r1 r2 h in
  deref out.1 out.2 = combinedSamples body st
  /\ (length h <= out.1)%nat
  /\ forall r, (r < length h)%nat -> deref r out.2 = deref r h.
Proof.
  intros Hr1 Hr2 H1 H2. unfold combinedSamples_in, combinedSamples.
  unfold Array_slice, Array_filter, Array_spread, Array_sort, pickWindow.
  set (w := window body).
  set (src := nullish (get body "source") (VStr "both")).
  rewrite H1.
  set (a1 := drop _ (history1 st)).
  destruct (alloc a1 h) as [w1 h1] eqn:E1.
  assert (D1 : deref w1 h1 = a1 /\ length h1 = S (length h)
               /\ forall r, (r < length h)%nat -> deref r h1 = deref r h).
  { injection E1 as <- <-. split; [apply deref_alloc_new|].
    split; [rewrite length_app; cbn; lia|]. intros r Hr. by apply deref_alloc_old. }
  destruct D1 as (D1 & L1 & O1). rewrite D1.
  set (f1 := List.filter is_sample a1).
  destruct (alloc f1 h1) as [s1 h2] eqn:E2.
  assert (D2 : deref s1 h2 = f1 /\ length h2 = S (length h1) /\ s1 = length h1
               /\ forall r, (r < length h1)%nat -> deref r h2 = deref r h1).
  { injection E2 as <- <-. split; [apply deref_alloc_new|].
    split; [rewrite length_app; cbn; lia|]. split; [done|].
    intros r Hr. by apply deref_alloc_old. }
  destruct D2 as (D2 & L2 & A2 & O2).
  rewrite (O2 r2), (O1 r2), H2 by lia.
  set (a2 := drop _ (history2 st)).
  destruct (alloc a2 h2) as [w2 h3] eqn:E3.
  assert (D3 : deref w2 h3 = a2 /\ length h3 = S (length h2)
               /\ forall r, (r < length h2)%nat -> deref r h3 = deref r h2).
  { injection E3 as <- <-. split; [apply deref_alloc_new|].
    split; [rewrite length_app; cbn; lia|]. intros r Hr. by apply deref_alloc_old. }
  destruct D3 as (D3 & L3 & O3). rewrite D3.
  set (f2 := List.filter is_sample a2).
  destruct (alloc f2 h3) as [s2 h4] eqn:E4.
  assert (D4 : deref s2 h4 = f2 /\ length h4 = S (length h3) /\ s2 = length h3
               /\ forall r, (r < length h3)%nat -> deref r h4 = deref r h3).
  { injection E4 as <- <-. split; [apply deref_alloc_new|].
    split; [rewrite length_app; cbn; lia|]. split; [done|].
    intros r Hr. by apply deref_alloc_old. }
  destruct D4 as (D4 & L4 & A4 & O4).
  assert (Old : forall r, (r < length h)%nat -> deref r h4 = deref r h).
  { intros r Hr. rewrite O4, O3, O2, O1 by lia. done. }
  assert (D2' : deref s1 h4 = f1) by (rewrite O4, O3 by lia; done).
  destruct (strict_eq_num src 1 || strict_eq_str src "1").
  { cbn [fst snd]. split; [done|]. split; [lia|done]. }
  destruct (strict_eq_num src 2 || strict_eq_str src "2").
  { cbn [fst snd]. split; [done|]. split; [lia|done]. }
  rewrite D2', D4.
  destruct (alloc (f1 ++ f2) h4) as [c h5] eqn:E5.
  assert (D5 : deref c h5 = f1 ++ f2 /\ c = length h4 /\ length h5 = S (length h4)
               /\ forall r, (r < length h4)%nat -> deref r h5 = deref r h4).
  { injection E5 as <- <-. split; [apply deref_alloc_new|]. split; [done|].
    split; [rewrite length_app; cbn; lia|].
    intros r Hr. by apply deref_alloc_old. }
  destruct D5 as (D5 & A5 & L5 & O5).
  cbn [fst snd]. rewrite D5. split; [|split; [lia|]].
  - unfold deref. rewrite list_lookup_insert_eq by lia. done.
  - intros r Hr. unfold deref at 1. rewrite list_lookup_insert_ne by lia.
    fold (deref r h5). rewrite O5 by lia. by apply Old.
Qed.


(** ** Further properties of the code *)

(** *** Shape of the records *)

Lemma toNum_finite v f : toNum v = Some f -> isFinite f = true.
Proof.
  destruct v as [| | |x|t| |]; cbn; try done.
  - destruct (isFinite x) eqn:Hx; [by intros [= <-]|done].
  - destruct (negb _ && isFinite (Number_of_string t)) eqn:Hx; [|done].
    apply andb_true_iff in Hx as [_ Hx]. by intros [= <-].
Qed.

Lemma num_or_undefined_shape r :
  (forall f, r = Some f -> isFinite f = true) ->
  num_or_undefined r = VUndefined
  \/ exists f, num_or_undefined r = VNum f /\ isFinite f = true.
Proof. destruct r as [f|]; cbn; eauto. Qed.

Lemma not_optional_field k :
  k ∈ ["kind"; "pitch"; "ts"; "source"; "event"] -> k ∉ optional_fields.
Proof using Type.
  intros Hk Ho. apply list_elem_of_In in Hk. apply list_elem_of_In in Ho.
  cbn in Hk.
  repeat (destruct Hk as [<-|Hk];
          [cbn in Ho; repeat (destruct Ho as [Ho|Ho]; [discriminate Ho|]); exact Ho|]).
  exact Hk.
Qed.

(** The properties of the object literal of [normalizeSample], by name. *)
Lemma normalizeSample_lookup body now m k :
  normalizeSample body now = NormOk m ->
  m !! k
  = if decide (k = "kind") then Some (VStr "sample")
    else if decide (k = "pitch") then VNum <$> toNum (get body "pitch")
    else if decide (k = "ts") then Some (VNum (default now (toNum (get body "ts"))))
    else if decide (k ∈ optional_fields)
         then Some (num_or_undefined (toNum (get body k)))
         else None.
Proof using Type.
  intros Hn.
  destruct (decide (k = "kind")) as [->|?]; [by eapply normalizeSample_kind|].
  destruct (decide (k = "pitch")) as [->|?].
  { revert Hn. unfold normalizeSample.
    destruct (toNum (get body "pitch")); [|done]. intros [= <-]. object_lookup. }
  destruct (decide (k = "ts")) as [->|?].
  { revert Hn. unfold normalizeSample.
    destruct (toNum (get body "pitch")); [|done]. intros [= <-]. object_lookup. }
  destruct (decide (k ∈ optional_fields)) as [Hk|Hk];
    [by eapply normalizeSample_optional|].
  revert Hn. unfold normalizeSample.
  destruct (toNum (get body "pitch")); [|done]. intros [= <-].
  unfold object; simpl foldl.
  rewrite !lookup_insert_ne
    by first [congruence | intros <-; apply Hk; unfold optional_fields; repeat constructor].
  done.
Qed.

(** X1. A record accepted as a sample has the fixed shape of the object
    literal of [normalizeSample]: under every name it holds nothing, or
    the [kind] "sample", or (under the numeric names only) a finite number.
    Whatever else the body carried is dropped, and no [NaN] or infinity is
    ever stored, given a finite clock reading. *)
Theorem sample_record_shape s body now msg k :
  isFinite now = true ->
  is_string (get body "event") = false ->
  record s body now = Some msg ->
  get msg k = VUndefined
  \/ (k = "kind" /\ get msg k = VStr "sample")
  \/ (k ∈ numeric_fields /\ exists f, get msg k = VNum f /\ isFinite f = true).
Proof using Type.
  intros Hnow He. unfold record, normalize. rewrite He.
  destruct (normalizeSample body now) as [err|m] eqn:Hn; [done|].
  intros [= <-]. rewrite get_VObj.
  assert (Hnum : forall f, f ∈ optional_fields -> f ∈ numeric_fields).
  { intros f Hf. unfold numeric_fields. by do 3 constructor. }
  destruct (decide (k = "source")) as [->|?].
  { right; right. split; [unfold numeric_fields; repeat constructor|].
    rewrite lookup_insert_eq. eexists. split; [done|by destruct s]. }
  rewrite lookup_insert_ne, (normalizeSample_lookup _ _ _ k Hn) by done.
  destruct (decide (k = "kind")) as [->|?]; [right; left; done|].
  destruct (decide (k = "pitch")) as [->|?].
  { right; right. split; [unfold numeric_fields; repeat constructor|].
    destruct (toNum (get body "pitch")) as [p|] eqn:Hp.
    - exists p. split; [done|by eapply toNum_finite].
    - revert Hn. unfold normalizeSample. by rewrite Hp. }
  destruct (decide (k = "ts")) as [->|?].
  { right; right. split; [unfold numeric_fields; repeat constructor|].
    eexists. split; [done|].
    destruct (toNum (get body "ts")) eqn:Ht; [by eapply toNum_finite|done]. }
  destruct (decide (k ∈ optional_fields)) as [Hk|Hk]; [|by left].
  destruct (num_or_undefined_shape (toNum (get body k))) as [Hu|(x & Hx & Hfin)].
  - intros x. apply toNum_finite.
  - left. cbn [default]. by rewrite Hu.
  - right; right. split; [by apply Hnum|]. exists x. cbn [default]. by rewrite Hx.
Qed.

(** X2. A record accepted as an event keeps every property of the body
    other than [kind], [ts] and [source] as it was, in memory and in its
    serialisation; its [event] is the body's non-empty string. *)
Theorem event_record_passes_body_through s body now msg k :
  is_string (get body "event") = true ->
  record s body now = Some msg ->
  k <> "kind" -> k <> "ts" -> k <> "source" ->
  get msg k = get body k
  /\ get (JSON_value msg) k = get (JSON_value body) k
  /\ exists c e, get msg "event" = VStr (String c e)
       /\ get body "event" = VStr (String c e).
Proof.
  intros He. unfold record, normalize. rewrite He. unfold normalizeEvent. rewrite He.
  destruct body as [| | | | | |o]; try done.
  destruct (get (VObj o) "event") as [| | | |[|c e]| |] eqn:Hev; try done.
  intros [= <-] Hk Ht Hs. cbn [spread].
  split; [by rewrite !get_VObj, !lookup_insert_ne|].
  split; [by rewrite !get_JSON_value, !lookup_insert_ne|].
  exists c, e. split; [|done].
  rewrite get_VObj, !lookup_insert_ne by done. by rewrite get_VObj in Hev.
Qed.

(** X3. A blank string is not a number for [toNum], although [Number]
    reads it as 0: a body whose pitch is blank is rejected rather than
    stored with pitch 0. *)
Theorem blank_string_is_not_zero s (t : string) (o : gmap string value) now st :
  falsy_string (trim t) = true ->
  o !! "event" = None ->
  Number_of_string t = 0%float
  /\ toNum (VStr t) = None
  /\ ingest s (VObj (<["pitch" := VStr t]> o)) now st
     = (rejection (NormError "pitch must be a number"), st).
Proof.
  intros Ht Hev.
  assert (Htrim : trim t = EmptyString) by (by destruct (trim t)).
  assert (Hnum : toNum (VStr t) = None) by (unfold toNum; by rewrite Ht).
  split; [unfold Number_of_string; by rewrite Htrim|]. split; [done|].
  apply ingest_rejected. unfold normalize.
  rewrite get_insert_ne, get_VObj, Hev by done. cbn [default is_string].
  unfold normalizeSample. by rewrite get_insert_eq, Hnum.
Qed.

(** *** The files, the histories and the read routes *)

Lemma step_appended_logged st i :
  appended (step st i) = appended st ++ from_option (fun x => [x]) [] (logged_line i).
Proof.
  rewrite step_appended. destruct i as [s body now| |j]; cbn; try by rewrite app_nil_r.
  destruct (record s body now); cbn; [done|by rewrite app_nil_r].
Qed.

Lemma logged_snoc l i :
  logged (l ++ [i]) = logged l ++ from_option (fun x => [x]) [] (logged_line i).
Proof. unfold logged. rewrite omap_app. cbn. by destruct (logged_line i). Qed.

Lemma run_appended st l : appended (run st l) = appended st ++ logged l.
Proof.
  induction l as [|i l IH] using rev_ind; [by rewrite app_nil_r|].
  by rewrite run_snoc, step_appended_logged, logged_snoc, IH, app_assoc.
Qed.

Lemma logged_lines l : snd <$> logged l = JSON_value <$> accepted_all l.
Proof.
  unfold logged, accepted_all. induction l as [|i l IH]; [done|].
  cbn. destruct i as [s body now| |j]; cbn; try done.
  destruct (record s body now); cbn; [by f_equal|done].
Qed.


Lemma logged_of_source s l :
  TELEMETRY1_PATH <> TELEMETRY2_PATH ->
  snd <$> List.filter (fun line => String.eqb line.1 (telemetry_path s)) (logged l)
  = JSON_value <$> accepted s l.
Proof.
  intros Hne. unfold logged, accepted. induction l as [|i l IH]; [done|].
  assert (String.eqb TELEMETRY1_PATH TELEMETRY2_PATH = false) as H12
    by by apply String.eqb_neq.
  assert (String.eqb TELEMETRY2_PATH TELEMETRY1_PATH = false) as H21
    by by apply String.eqb_neq.
  cbn [omap list_omap]. destruct i as [s' body now| |j]; cbn; try done.
  destruct s, s'; destruct (record _ body now); cbn;
    rewrite ?String.eqb_refl, ?H12, ?H21; cbn; try done; by f_equal.
Qed.

Lemma file_lines_run s t1 t2 l :
  TELEMETRY1_PATH <> TELEMETRY2_PATH ->
  file_lines (telemetry_path s) (run (init t1 t2) l) = JSON_value <$> accepted s l.
Proof.
  intros Hne. unfold file_lines. rewrite run_appended. cbn [init appended app].
  by apply logged_of_source.
Qed.


Lemma fmap_lastn {A B} (f : A -> B) n (l : list A) : f <$> lastn n l = lastn n (f <$> l).
Proof. unfold lastn. by rewrite fmap_drop, length_fmap. Qed.


Lemma is_sample_JSON_value v : is_sample (JSON_value v) = is_sample v.
Proof.
  unfold is_sample. destruct v as [| | |f|t|a|o]; try done.
  - cbn. unfold json_number. by repeat case_match.
  - rewrite get_JSON_value, get_VObj.
    destruct (o !! "kind") as [[| | |f|t|a|o']|]; try done.
    cbn. unfold json_number. by repeat case_match.
Qed.

Lemma filter_fmap_JSON l :
  List.filter is_sample (JSON_value <$> l) = JSON_value <$> List.filter is_sample l.
Proof.
  induction l as [|x l IH]; [done|]. cbn.
  rewrite is_sample_JSON_value. destruct (is_sample x); cbn; by rewrite IH.
Qed.


(** *** One source at a time *)

Lemma post_record_not_posts_to s i : posts_to s i = false -> post_record s i = None.
Proof. by destruct i as [[] ? ?| |], s. Qed.

Lemma run_cons st i l : run (step st i) l = run st (i :: l).
Proof. done. Qed.

Lemma run_source_only s l : forall st1 st2,
  getLatest s st1 = getLatest s st2 -> getHistory s st1 = getHistory s st2 ->
  getLatest s (run st1 l) = getLatest s (run st2 (List.filter (posts_to s) l))
  /\ getHistory s (run st1 l) = getHistory s (run st2 (List.filter (posts_to s) l)).
Proof.
  induction l as [|i l IH]; intros st1 st2 Hl Hh; [done|].
  cbn [List.filter]. rewrite <- (run_cons st1).
  destruct (posts_to s i) eqn:Hp.
  - rewrite <- (run_cons st2). apply IH.
    + by rewrite !step_latest, Hl.
    + by rewrite !step_history, Hh.
  - apply IH.
    + by rewrite step_latest, (post_record_not_posts_to _ _ Hp).
    + by rewrite step_history, (post_record_not_posts_to _ _ Hp).
Qed.

(** X8. The two sources do not interfere: what [latest] and the history
    of a source are after a run is what they would be had only the posts
    to that source's endpoint taken place. *)
Theorem sources_are_independent s st l :
  getLatest s (run st l) = getLatest s (run st (List.filter (posts_to s) l))
  /\ getHistory s (run st l) = getHistory s (run st (List.filter (posts_to s) l)).
Proof. by apply run_source_only. Qed.

(** X9. With [MAX_BUFFER] zero or negative nothing is ever kept: the
    history of a source stays empty and [GET /historyN] returns the empty
    array, while [latest] follows the accepted samples as usual. *)
Theorem no_history_without_buffer s t1 t2 l :
  MAX_BUFFER <= 0 ->
  let st := run (init t1 t2) l in
  getHistory s st = []
  /\ GET_history s st = VArr []
  /\ getLatest s st
     = default (getLatest s (init t1 t2)) (last (List.filter is_sample (accepted s l))).
Proof.
  intros Hmax st. subst st.
  assert (Hh : getHistory s (run (init t1 t2) l) = []).
  { induction l as [|i l IH] using rev_ind; [by destruct s|].
    rewrite run_snoc, step_history, IH.
    destruct (post_record s i) as [msg|]; [|done].
    unfold bounded_push. cbn [app length].
    by destruct (Z.ltb_spec MAX_BUFFER (Z.of_nat 1)); [|lia]. }
  split; [done|]. split; [unfold GET_history; by rewrite Hh|apply run_latest].
Qed.

(** *** Sockets and files *)

Lemma run_app st l1 l2 : run st (l1 ++ l2) = run (run st l1) l2.
Proof. unfold run. by rewrite foldl_app. Qed.

Lemma send_is_open msg c : is_open (send msg c) = is_open c.
Proof. by destruct c. Qed.

(** A socket that is open and is not closed along a run stays open and is
    sent the lines the run appends to the files. *)
Lemma run_stays_open l : forall st i c,
  clients st !! i = Some c -> is_open c = true ->
  Forall (fun x => closes i x = false) l ->
  exists c', clients (run st l) !! i = Some c'
    /\ is_open c' = true
    /\ received c' = received c ++ (snd <$> logged l).
Proof.
  induction l as [|x l IH]; intros st i c Hc Hopen Hl.
  { exists c. by rewrite app_nil_r. }
  apply Forall_cons in Hl as [Hx Hl].
  rewrite <- run_cons.
  assert (exists c1, clients (step st x) !! i = Some c1 /\ is_open c1 = true
            /\ received c1
               = received c ++ (snd <$> from_option (fun y => [y]) [] (logged_line x)))
    as (c1 & H1 & Ho & Hr).
  { rewrite step_clients. destruct x as [s body now| |j]; cbn [logged_line].
    - destruct (record s body now) as [msg|]; cbn.
      + unfold deliver. rewrite list_lookup_fmap, Hc. cbn. rewrite Hopen.
        eexists. split; [done|]. by rewrite send_is_open.
      + exists c. by rewrite app_nil_r.
    - exists c. rewrite lookup_app_l by (by eapply lookup_lt_Some).
      by rewrite app_nil_r.
    - exists c. cbn in Hx. apply Nat.eqb_neq in Hx.
      rewrite list_lookup_alter_ne by (intros ?; by subst).
      by rewrite app_nil_r. }
  destruct (IH _ _ _ H1 Ho Hl) as (c' & Hc' & Ho' & Hr').
  exists c'. split; [done|]. split; [done|].
  rewrite Hr', Hr, <- app_assoc. f_equal.
  unfold logged. cbn [omap list_omap].
  destruct (logged_line x); by rewrite ?fmap_cons.
Qed.


(** X11. Once a socket has closed it is left alone: whatever happens next
    (posts, new connections, further closes), it is still not open and has
    been sent nothing more than it had when it closed. *)
Theorem closed_socket_is_left_alone st l1 l2 i c :
  clients (run st l1) !! i = Some c ->
  exists c', clients (run st (l1 ++ Close i :: l2)) !! i = Some c'
    /\ is_open c' = false
    /\ received c' = received c.
Proof.
  intros Hc. rewrite run_app, <- run_cons.
  assert (clients (step (run st l1) (Close i)) !! i = Some (Client CLOSED (received c))) as H1.
  { rewrite step_clients. by rewrite list_lookup_alter_eq, Hc. }
  destruct (run_closed_client l2 _ _ _ H1 eq_refl) as (c' & Hc' & Ho & Hr).
  by exists c'.
Qed.

(** *** The analysis on the histories the server builds *)

Lemma run_history_Forall (P : value -> Prop) s t1 t2 l :
  (forall i msg, i ∈ l -> post_record s i = Some msg -> P msg) ->
  Forall P (getHistory s (run (init t1 t2) l)).
Proof.
  induction l as [|i l IH] using rev_ind; intros HP; [by destruct s; constructor|].
  rewrite run_snoc, step_history.
  assert (Forall P (getHistory s (run (init t1 t2) l))) as Hl.
  { apply IH. intros j msg Hj. apply HP. apply elem_of_app. by left. }
  destruct (post_record s i) as [msg|] eqn:Hi; [|done].
  apply Forall_bounded_push; [done|].
  apply (HP i); [|done]. apply elem_of_app. right. by constructor.
Qed.

Lemma record_sample_pitch s body now msg :
  record s body now = Some msg -> is_sample msg = true -> has_finite_pitch msg = true.
Proof using Type.
  intros Hrec Hs. destruct (record_fields _ _ _ _ Hrec) as (Hk & _).
  unfold is_sample in Hs. rewrite Hk in Hs.
  destruct (is_string (get body "event")) eqn:He; [done|].
  revert Hrec. unfold record, normalize. rewrite He. unfold normalizeSample.
  destruct (toNum (get body "pitch")) as [p|] eqn:Hp; [|done].
  intros [= <-]. unfold has_finite_pitch. rewrite get_VObj.
  assert (<["source":=VNum (source_number s)]>
            (object
               [("kind", VStr "sample"); ("ax", num_or_undefined (toNum (get body "ax")));
                ("ay", num_or_undefined (toNum (get body "ay")));
                ("az", num_or_undefined (toNum (get body "az"))); ("pitch", VNum p);
                ("pitch_smooth", num_or_undefined (toNum (get body "pitch_smooth")));
                ("roll", num_or_undefined (toNum (get body "roll")));
                ("a_mag", num_or_undefined (toNum (get body "a_mag")));
                ("dpitch", num_or_undefined (toNum (get body "dpitch")));
                ("baseline_pitch", num_or_undefined (toNum (get body "baseline_pitch")));
                ("button", num_or_undefined (toNum (get body "button")));
                ("button_click", num_or_undefined (toNum (get body "button_click")));
                ("ts", VNum (default now (toNum (get body "ts"))))]) !! "pitch"
          = Some (VNum p)) as -> by object_lookup.
  cbn. by eapply toNum_finite.
Qed.

Lemma post_record_record s i msg :
  post_record s i = Some msg -> exists body now, i = Post s body now /\ record s body now = Some msg.
Proof. destruct i as [s' body now| |j]; [|done..]. destruct s, s'; cbn; try done; eauto. Qed.

(** Every sample in a history the server has built has a finite pitch. *)
Lemma run_histories_finite_pitch s t1 t2 l :
  Forall (fun x => is_sample x = true -> has_finite_pitch x = true)
    (getHistory s (run (init t1 t2) l)).
Proof.
  apply run_history_Forall. intros i msg _ Hi.
  destruct (post_record_record _ _ _ Hi) as (body & now & _ & Hrec).
  by apply (record_sample_pitch _ _ _ _ Hrec).
Qed.

Lemma Forall_pickWindow (P : value -> Prop) w l : Forall P l -> Forall P (pickWindow w l).
Proof. unfold pickWindow. apply Forall_drop. Qed.

Lemma Forall_filter_both {A} (P : A -> Prop) (f : A -> bool) l :
  Forall (fun x => f x = true -> P x) l -> Forall P (List.filter f l).
Proof.
  induction 1 as [|x l Hx _ IH]; [constructor|]. cbn.
  destruct (f x) eqn:Hf; [constructor; auto|done].
Qed.

Lemma Forall_sorted_by (P : value -> Prop) f l : Forall P l -> Forall P (sorted_by f l).
Proof. intros H. by rewrite sorted_by_Permutation. Qed.

Lemma combinedSamples_Forall (P : value -> Prop) body st :
  Forall (fun x => is_sample x = true -> P x) (history1 st) ->
  Forall (fun x => is_sample x = true -> P x) (history2 st) ->
  Forall P (combinedSamples body st).
Proof.
  intros H1 H2. unfold combinedSamples.
  pose proof (Forall_filter_both P is_sample _ (Forall_pickWindow _ (window body) _ H1)) as F1.
  pose proof (Forall_filter_both P is_sample _ (Forall_pickWindow _ (window body) _ H2)) as F2.
  repeat case_match; try done.
  apply Forall_sorted_by, Forall_app. by split.
Qed.

Lemma pitches_all_finite samples :
  Forall (fun x => has_finite_pitch x = true) samples ->
  VNum <$> pitches samples = (fun x => get x "pitch") <$> samples.
Proof.
  induction 1 as [|x l Hx _ IH]; [done|].
  unfold pitches in *. cbn. unfold has_finite_pitch in Hx.
  destruct (get x "pitch") as [| | |p| | |]; try done.
  rewrite Hx. cbn. by rewrite IH.
Qed.

Lemma pitches_finite samples : Forall (fun p => is_finite p = true) (pitches samples).
Proof.
  induction samples as [|x l IH]; [constructor|].
  unfold pitches in *. cbn.
  destruct (get x "pitch") as [| | |p| | |]; try done.
  destruct (isFinite p) eqn:Hp; [by constructor|done].
Qed.

(** X12. On the histories the server builds, the numeric filter of the
    analysis drops nothing: every record of the window is a sample with a
    finite pitch, so the pitches analysed are the pitches of the window,
    one per record and in the same order, and the sample count [n] of the
    report is the size of the window. *)
Theorem analysis_counts_every_sample body t1 t2 l :
  let out := combinedSamples body (run (init t1 t2) l) in
  Forall (fun x => is_sample x = true /\ has_finite_pitch x = true) out
  /\ VNum <$> pitches out = (fun x => get x "pitch") <$> out
  /\ length (pitches out) = length out.
Proof.
  intros out.
  assert (Hall : Forall (fun x => is_sample x = true /\ has_finite_pitch x = true) out).
  { apply combinedSamples_Forall.
    - eapply Forall_impl; [apply (run_histories_finite_pitch Source1)|]. cbn. auto.
    - eapply Forall_impl; [apply (run_histories_finite_pitch Source2)|]. cbn. auto. }
  assert (Heq : VNum <$> pitches out = (fun x => get x "pitch") <$> out).
  { apply pitches_all_finite. eapply Forall_impl; [exact Hall|]. cbn. by intros ? [_ ?]. }
  split; [done|]. split; [done|].
  by rewrite <- (length_fmap VNum), Heq, length_fmap.
Qed.

Lemma length_pickWindow w l : 0 <= w -> (length (pickWindow w l) <= Z.to_nat w)%nat.
Proof. intros Hw. unfold pickWindow. rewrite length_drop. lia. Qed.

Lemma length_filter_le {A} (f : A -> bool) l : (length (List.filter f l) <= length l)%nat.
Proof. induction l as [|x l IH]; [done|]. cbn. destruct (f x); cbn; lia. Qed.

Lemma length_pitches samples : (length (pitches samples) <= length samples)%nat.
Proof.
  induction samples as [|x l IH]; [done|]. unfold pitches in *. cbn.
  destruct (match get x "pitch" with VNum p => _ | _ => _ end); cbn; lia.
Qed.


(** X14. On the histories the server builds from posts made at finite
    clock readings, a combined analysis (no single source selected) is in
    ascending [ts]: the comparator never meets a missing or non-finite
    [ts]. *)
Theorem combined_analysis_is_sorted body t1 t2 l :
  Forall (fun i => finite_clock i = true) l ->
  let source := nullish (get body "source") (VStr "both") in
  strict_eq_num source 1 || strict_eq_str source "1" = false ->
  strict_eq_num source 2 || strict_eq_str source "2" = false ->
  StronglySorted ts_le (combinedSamples body (run (init t1 t2) l)).
Proof.
  intros Hl source Hs1 Hs2. unfold combinedSamples. fold source. rewrite Hs1, Hs2.
  apply sorted_by_StronglySorted, Forall_app. split.
  - apply Forall_filter_bool, Forall_pickWindow.
    apply (run_histories_finite_ts Source1 _ _ _ Hl).
  - apply Forall_filter_bool, Forall_pickWindow.
    apply (run_histories_finite_ts Source2 _ _ _ Hl).
Qed.

(** *** The statistics of the report *)

Lemma SFcompare_refl x : is_finite_SF x = true -> SFcompare x x = Some Eq.
Proof.
  destruct x as [s|s| |s m e]; try done; cbn.
  rewrite Z.compare_refl, Pos.compare_cont_refl. by destruct s.
Qed.

Lemma leb_refl x : is_finite x = true -> (x <=? x)%float = true.
Proof.
  intros Hx. rewrite leb_spec. unfold SFleb.
  by rewrite SFcompare_refl by by apply is_finite_Prim2SF.
Qed.

Lemma ltb_infinity x : is_finite x = true -> (x <? infinity)%float = true.
Proof.
  intros Hx. apply is_finite_Prim2SF in Hx. rewrite ltb_spec.
  change (Prim2SF infinity) with (S754_infinity false).
  unfold SFltb. by destruct (Prim2SF x) as [|[]| |[]].
Qed.

Lemma neg_infinity_ltb x : is_finite x = true -> (neg_infinity <? x)%float = true.
Proof.
  intros Hx. apply is_finite_Prim2SF in Hx. rewrite ltb_spec.
  change (Prim2SF neg_infinity) with (S754_infinity true).
  unfold SFltb. by destruct (Prim2SF x) as [|[]| |[]].
Qed.

Lemma is_zero_Prim2SF x : PrimFloat.is_zero x = true -> exists s, Prim2SF x = S754_zero s.
Proof.
  unfold PrimFloat.is_zero. rewrite FloatAxioms.eqb_spec.
  change (Prim2SF PrimFloat.zero) with (S754_zero false).
  unfold SFeqb. destruct (Prim2SF x) as [s|s| |s m e]; cbn; try done; eauto.
  all: by destruct s.
Qed.

Lemma zero_leb_zero x y :
  PrimFloat.is_zero x = true -> PrimFloat.is_zero y = true -> (x <=? y)%float = true.
Proof.
  intros [s Hx]%is_zero_Prim2SF [t Hy]%is_zero_Prim2SF.
  rewrite leb_spec, Hx, Hy. done.
Qed.

Lemma is_finite_not_nan l :
  Forall (fun p => is_finite p = true) l -> existsb PrimFloat.is_nan l = false.
Proof.
  induction 1 as [|x l Hx _ IH]; [done|]. cbn. rewrite IH.
  unfold is_finite in Hx. by destruct (PrimFloat.is_nan x).
Qed.

Lemma min_step_spec a x :
  is_finite a = true -> is_finite x = true ->
  (min_step a x = a \/ min_step a x = x)
  /\ (min_step a x <=? a)%float = true
  /\ (min_step a x <=? x)%float = true.
Proof.
  intros Ha Hx. unfold min_step.
  destruct (is_neg_zero x && is_pos_zero a) eqn:Hz.
  - apply andb_true_iff in Hz as [[Hzx _]%andb_true_iff [Hza _]%andb_true_iff].
    split; [by right|]. split; [by apply zero_leb_zero|by apply leb_refl].
  - destruct (x <? a)%float eqn:Hlt.
    + split; [by right|]. split; [by apply ltb_leb|by apply leb_refl].
    + split; [by left|]. split; [by apply leb_refl|by apply not_ltb_leb].
Qed.

Lemma max_step_spec a x :
  is_finite a = true -> is_finite x = true ->
  (max_step a x = a \/ max_step a x = x)
  /\ (a <=? max_step a x)%float = true
  /\ (x <=? max_step a x)%float = true.
Proof.
  intros Ha Hx. unfold max_step.
  destruct (is_pos_zero x && is_neg_zero a) eqn:Hz.
  - apply andb_true_iff in Hz as [[Hzx _]%andb_true_iff [Hza _]%andb_true_iff].
    split; [by right|]. split; [by apply zero_leb_zero|by apply leb_refl].
  - destruct (a <? x)%float eqn:Hlt.
    + split; [by right|]. split; [by apply ltb_leb|by apply leb_refl].
    + split; [by left|]. split; [by apply leb_refl|by apply not_ltb_leb].
Qed.

Lemma foldl_min_step l : forall a,
  is_finite a = true -> Forall (fun p => is_finite p = true) l ->
  let r := foldl min_step a l in
  is_finite r = true /\ r ∈ a :: l
  /\ Forall (fun p => (r <=? p)%float = true) (a :: l).
Proof.
  induction l as [|x l IH]; intros a Ha Hl; cbn zeta.
  { cbn. split; [done|]. split; [by constructor|]. constructor; [by apply leb_refl|constructor]. }
  apply Forall_cons in Hl as [Hx Hl].
  destruct (min_step_spec a x Ha Hx) as (Hor & Hma & Hmx).
  assert (Hm : is_finite (min_step a x) = true) by (by destruct Hor as [-> | ->]).
  destruct (IH _ Hm Hl) as (Hr & Hin & Hle). cbn [foldl].
  set (r := foldl min_step (min_step a x) l) in *.
  apply Forall_cons in Hle as [Hrm Hle].
  split; [done|]. split.
  - apply elem_of_cons in Hin as [Hin|Hin].
    + rewrite Hin. destruct Hor as [-> | ->]; [by constructor|by do 2 constructor].
    + by do 2 constructor.
  - constructor; [by apply (leb_trans _ (min_step a x))|].
    constructor; [by apply (leb_trans _ (min_step a x))|done].
Qed.

Lemma foldl_max_step l : forall a,
  is_finite a = true -> Forall (fun p => is_finite p = true) l ->
  let r := foldl max_step a l in
  is_finite r = true /\ r ∈ a :: l
  /\ Forall (fun p => (p <=? r)%float = true) (a :: l).
Proof.
  induction l as [|x l IH]; intros a Ha Hl; cbn zeta.
  { cbn. split; [done|]. split; [by constructor|]. constructor; [by apply leb_refl|constructor]. }
  apply Forall_cons in Hl as [Hx Hl].
  destruct (max_step_spec a x Ha Hx) as (Hor & Hma & Hmx).
  assert (Hm : is_finite (max_step a x) = true) by (by destruct Hor as [-> | ->]).
  destruct (IH _ Hm Hl) as (Hr & Hin & Hle). cbn [foldl].
  set (r := foldl max_step (max_step a x) l) in *.
  apply Forall_cons in Hle as [Hrm Hle].
  split; [done|]. split.
  - apply elem_of_cons in Hin as [Hin|Hin].
    + rewrite Hin. destruct Hor as [-> | ->]; [by constructor|by do 2 constructor].
    + by do 2 constructor.
  - constructor; [by apply (leb_trans _ (max_step a x))|].
    constructor; [by apply (leb_trans _ (max_step a x))|done].
Qed.

Lemma min_step_infinity x : is_finite x = true -> min_step infinity x = x.
Proof.
  intros Hx. unfold min_step. rewrite (ltb_infinity x Hx).
  by destruct (is_neg_zero x).
Qed.

Lemma max_step_neg_infinity x : is_finite x = true -> max_step neg_infinity x = x.
Proof.
  intros Hx. unfold max_step. rewrite (neg_infinity_ltb x Hx).
  by destruct (is_pos_zero x).
Qed.

Lemma Math_min_spec x l :
  Forall (fun p => is_finite p = true) (x :: l) ->
  Math_min (x :: l) ∈ x :: l
  /\ Forall (fun p => (Math_min (x :: l) <=? p)%float = true) (x :: l).
Proof.
  intros Hl. unfold Math_min. rewrite (is_finite_not_nan _ Hl).
  apply Forall_cons in Hl as [Hx Hl]. cbn [foldl]. rewrite min_step_infinity by done.
  by destruct (foldl_min_step l x Hx Hl) as (_ & ? & ?).
Qed.

Lemma Math_max_spec x l :
  Forall (fun p => is_finite p = true) (x :: l) ->
  Math_max (x :: l) ∈ x :: l
  /\ Forall (fun p => (p <=? Math_max (x :: l))%float = true) (x :: l).
Proof.
  intros Hl. unfold Math_max. rewrite (is_finite_not_nan _ Hl).
  apply Forall_cons in Hl as [Hx Hl]. cbn [foldl]. rewrite max_step_neg_infinity by done.
  by destruct (foldl_max_step l x Hx Hl) as (_ & ? & ?).
Qed.


Lemma zero_share_is_low y :
  let z := (number_of_nat 0 / y * 100)%float in
  (60 <=? z)%float = false /\ (25 <=? z)%float = false.
Proof.
  cbn zeta. change (number_of_nat 0) with 0%float.
  rewrite !leb_spec, mul_spec, div_spec.
  change (Prim2SF 0) with (S754_zero false).
  destruct (Prim2SF y) as [s|s| |s m e]; try done.
  all: by destruct s.
Qed.

(** X16. When no pitch of the window reaches [SLOUCH_DEG], the fallback
    report says "good", whatever the number of samples; this includes the
    empty window, for which the report is "good" as well. *)
Theorem no_slouch_is_good ps :
  slouchCount SLOUCH_DEG ps = 0%nat -> fallback_overall ps = "good".
Proof.
  intros Hc. unfold fallback_overall, slouchPct. rewrite Hc.
  destruct ps as [|p ps]; [done|].
  by destruct (zero_share_is_low (number_of_nat (length (p :: ps)))) as [-> ->].
Qed.

(** *** The telemetry summary *)

(** X17. For the window of a request on the histories the server builds,
    the summary handed to the model is "No samples available." exactly
    when the window is empty, and is never "No numeric pitch samples
    available.": that branch cannot be taken, every sample the server
    stores having a finite pitch. *)
Theorem summary_of_served_window body t1 t2 l :
  let st := run (init t1 t2) l in
  (telemetryText body st = "No samples available." <-> combinedSamples body st = [])
  /\ telemetryText body st <> "No numeric pitch samples available.".
Proof.
  intros st. unfold telemetryText.
  set (out := combinedSamples body st).
  assert (Hlen : length (pitches out) = length out).
  { assert (VNum <$> pitches out = (fun x => get x "pitch") <$> out) as Heq.
    { apply pitches_all_finite. apply combinedSamples_Forall.
      - apply (run_histories_finite_pitch Source1).
      - apply (run_histories_finite_pitch Source2). }
    by rewrite <- (length_fmap VNum), Heq, length_fmap. }
  unfold buildTelemetrySummary.
  destruct (last out) as [x|] eqn:Hlast.
  - assert (out <> []) as Hne by (intros E; by rewrite E in Hlast).
    destruct (pitches out) as [|p ps] eqn:Hp.
    { destruct out; [done|]; cbn in Hlen; lia. }
    split; [|done]. split; [done|]. intros E. by rewrite E in Hne.
  - apply last_None in Hlast. rewrite Hlast. done.
Qed.

(** *** From the serial bridge to the server *)

Lemma record_is_Some s body now :
  is_Some (record s body now)
  <-> if is_string (get body "event")
      then exists c e, get body "event" = VStr (String c e)
      else is_Some (toNum (get body "pitch")).
Proof.
  unfold record, normalize.
  destruct (is_string (get body "event")) eqn:He.
  - unfold normalizeEvent. rewrite He.
    destruct (get body "event") as [| | | |[|c e]| |]; try done.
    + split; [by intros [? ?]|by intros (? & ? & ?)].
    + split; eauto.
  - unfold normalizeSample.
    destruct (toNum (get body "pitch")); split; eauto; by intros [? ?].
Qed.

Lemma ingest_not_ok_iff s body now st :
  (ingest s body now st).1.(ok) = false <-> ~ is_Some (record s body now).
Proof.
  rewrite <- ingest_ok_iff_record with (st := st).
  by destruct (ok (ingest s body now st).1).
Qed.

Lemma is_string_json_number f : is_string (json_number f) = false.
Proof. unfold json_number. by repeat case_match. Qed.

Lemma get_JSON_string (o : gmap string value) k t :
  get (JSON_value (VObj o)) k = VStr t <-> get (VObj o) k = VStr t.
Proof.
  rewrite get_JSON_value, get_VObj.
  destruct (o !! k) as [[| | |f|t'| |]|]; cbn [mbind option_bind JSON_property default];
    try done.
  unfold json_number. by repeat case_match.
Qed.

Lemma is_string_get_JSON (o : gmap string value) k :
  is_string (get (JSON_value (VObj o)) k) = is_string (get (VObj o) k).
Proof.
  rewrite get_JSON_value, get_VObj.
  destruct (o !! k) as [[| | |f|t'| |]|]; cbn [mbind option_bind JSON_property default];
    try done.
  apply is_string_json_number.
Qed.

(** What [toNum] makes of a property once the object has gone through
    [JSON.stringify] and back. *)
Lemma toNum_get_JSON (o : gmap string value) k :
  is_Some (toNum (get (JSON_value (VObj o)) k))
  <-> (exists p, get (VObj o) k = VNum p /\ isFinite p = true)
      \/ (exists t, get (VObj o) k = VStr t /\ is_Some (toNum (VStr t))).
Proof.
  rewrite get_JSON_value, get_VObj.
  destruct (o !! k) as [[| | |f|t'| |]|]; cbn [mbind option_bind JSON_property default].
  all: try (split; [by intros [? ?]|by intros [(? & ? & ?)|(? & ? & ?)]]).
  - unfold json_number. destruct (isFinite f) eqn:Hf.
    + split; [intros _; left; eauto|intros _].
      destruct (PrimFloat.is_zero f); cbn; [done|]. rewrite Hf. done.
    + split; [by intros [? ?]|]. intros [(? & [= <-] & ?)|(? & ? & ?)]; [congruence|done].
  - split; [intros H; right; eauto|]. by intros [(? & ? & ?)|(? & [= <-] & ?)].
Qed.


(** *** Posting a line of the file again *)

Lemma vsize_elem (o : gmap string value) k x :
  o !! k = Some x -> (vsize x < vsize (VObj o))%nat.
Proof.
  intros H. cbn [vsize].
  rewrite <- (insert_delete_id o k x H).
  rewrite map_fold_insert_L.
  - lia.
  - intros. lia.
  - apply lookup_delete_eq.
Qed.

Lemma vsize_In l x : x ∈ l -> (vsize x < vsize (VArr l))%nat.
Proof.
  cbn [vsize]. induction 1 as [x l|x y l _ IH]; cbn [foldr]; lia.
Qed.

(** Induction on values, through arrays and objects. *)
Lemma value_nested_ind (P : value -> Prop) :
  P VUndefined -> P VNull -> (forall b, P (VBool b)) -> (forall f, P (VNum f)) ->
  (forall s, P (VStr s)) ->
  (forall l, Forall P l -> P (VArr l)) ->
  (forall o : gmap string value, map_Forall (fun _ => P) o -> P (VObj o)) ->
  forall v, P v.
Proof.
  intros Hu Hn Hb Hf Hs Ha Ho v.
  remember (vsize v) as n eqn:Hn'. revert v Hn'.
  induction n as [n IH] using lt_wf_ind. intros v ->.
  destruct v as [| | |f|t|l|o]; auto.
  - apply Ha. apply Forall_forall. intros x Hx.
    apply (IH (vsize x)); [by apply vsize_In|done].
  - apply Ho. intros k x Hk. apply (IH (vsize x)); [by eapply vsize_elem|done].
Qed.

Lemma json_number_idem f : JSON_value (json_number f) = json_number f.
Proof.
  unfold json_number. destruct (isFinite f) eqn:Hf; [|done].
  destruct (PrimFloat.is_zero f) eqn:Hz; cbn; unfold json_number.
  - done.
  - by rewrite Hf, Hz.
Qed.

Lemma JSON_property_value v :
  JSON_property v = match v with VUndefined => None | _ => Some (JSON_value v) end.
Proof. by destruct v. Qed.

(** Serialising what has been serialised changes nothing. *)
Lemma JSON_value_idem v : JSON_value (JSON_value v) = JSON_value v.
Proof.
  induction v as [| | | | |l IH|o IH] using value_nested_ind; try done.
  - apply json_number_idem.
  - cbn. f_equal. rewrite <- list_fmap_compose.
    apply Forall_fmap_ext_1. done.
  - cbn [JSON_value]. f_equal. apply map_eq. intros k. rewrite !lookup_omap.
    destruct (o !! k) as [x|] eqn:Hk; [|done].
    specialize (IH k x Hk). cbn beta in IH.
    change (JSON_property x ≫= JSON_property = JSON_property x).
    destruct x as [| | |f|t|l|o']; try done.
    + cbn [JSON_property mbind option_bind]. unfold json_number.
      destruct (isFinite f) eqn:Hf; [|done].
      destruct (PrimFloat.is_zero f) eqn:Hz; cbn; unfold json_number; [done|].
      by rewrite Hf, Hz.
    + cbn [JSON_property mbind option_bind]. cbn [JSON_value] in IH. by rewrite IH.
    + cbn [JSON_property mbind option_bind]. cbn [JSON_value] in IH. by rewrite IH.
Qed.

Lemma JSON_property_idem v : JSON_property v ≫= JSON_property = JSON_property v.
Proof.
  destruct v as [| | |f|t|l|o]; try done; cbn [JSON_property mbind option_bind].
  - unfold json_number. destruct (isFinite f) eqn:Hf; [|done].
    destruct (PrimFloat.is_zero f) eqn:Hz; cbn; unfold json_number; [done|].
    by rewrite Hf, Hz.
  - pose proof (JSON_value_idem (VArr l)) as H. cbn [JSON_value] in H. by rewrite H.
  - pose proof (JSON_value_idem (VObj o)) as H. cbn [JSON_value] in H. by rewrite H.
Qed.

(** A finite number, written and read back, is a finite number that is
    written the same way. *)
Lemma toNum_json_number x :
  isFinite x = true ->
  exists y, json_number x = VNum y /\ toNum (VNum y) = Some y
    /\ isFinite y = true /\ json_number y = VNum y.
Proof using Type.
  intros Hx. pose proof (json_number_idem x) as Hi. unfold json_number in *.
  rewrite Hx in *. destruct (PrimFloat.is_zero x) eqn:Hz.
  - exists PrimFloat.zero. done.
  - exists x. cbn in *. unfold json_number, isFinite in *. by rewrite Hx in *.
Qed.

(** A property of a sample record, written, coerced by [toNum] and
    written again, is written as it was the first time. *)
Lemma reread_property v :
  v = VUndefined \/ (exists x, v = VNum x /\ isFinite x = true) ->
  JSON_property (num_or_undefined (toNum (default VUndefined (JSON_property v))))
  = JSON_property v.
Proof using Type.
  intros [->|(x & -> & Hx)]; [done|].
  destruct (toNum_json_number x Hx) as (y & Hy & Hty & _ & Hyy).
  cbn [JSON_property default]. rewrite Hy. unfold id. rewrite Hty. cbn. by rewrite Hyy.
Qed.

Lemma JSON_property_source s : JSON_property (VNum (source_number s)) = Some (VNum (source_number s)).
Proof. by destruct s. Qed.

Lemma event_replays s (o : gmap string value) c e t now' :
  o !! "event" = Some (VStr (String c e)) ->
  isFinite t = true ->
  let msg := VObj (<["source" := VNum (source_number s)]>
                     (<["ts" := VNum t]> (<["kind" := VStr "event"]> o))) in
  exists msg', record s (JSON_value msg) now' = Some msg'
    /\ JSON_value msg' = JSON_value msg.
Proof using Type.
  intros Hev Ht msg.
  destruct (toNum_json_number t Ht) as (y & Hy & Hty & Hfy & Hyy).
  set (J := omap JSON_property
              (<["source" := VNum (source_number s)]>
                 (<["ts" := VNum t]> (<["kind" := VStr "event"]> o)))).
  assert (HJ : J = <["source" := VNum (source_number s)]>
                     (<["ts" := VNum y]>
                        (<["kind" := VStr "event"]> (omap JSON_property o)))).
  { subst J.
    rewrite (omap_insert_Some _ _ _ _ _ (JSON_property_source s)).
    rewrite (omap_insert_Some _ _ _ _ (VNum y)) by (cbn; by rewrite Hy).
    by rewrite (omap_insert_Some _ _ _ _ (VStr "event")). }
  assert (Hidem : omap JSON_property J = J).
  { pose proof (JSON_value_idem msg) as H. subst msg. cbn [JSON_value] in H.
    by injection H. }
  assert (HevJ : get (VObj J) "event" = VStr (String c e)).
  { rewrite get_VObj, HJ, !lookup_insert_ne by done. by rewrite lookup_omap, Hev. }
  assert (HtsJ : get (VObj J) "ts" = VNum y).
  { rewrite get_VObj, HJ, lookup_insert_ne by done. by rewrite lookup_insert_eq. }
  exists (VObj (<["source" := VNum (source_number s)]>
                  (<["ts" := VNum y]> (<["kind" := VStr "event"]> J)))).
  subst msg. cbn [JSON_value]. fold J. split.
  - unfold record, normalize. rewrite HevJ. cbn [is_string].
    unfold normalizeEvent. rewrite HevJ, HtsJ, Hty. done.
  - f_equal.
    rewrite (omap_insert_Some _ _ _ _ _ (JSON_property_source s)).
    rewrite (omap_insert_Some _ _ _ _ (VNum y)) by (cbn; by rewrite Hyy).
    rewrite (omap_insert_Some _ _ _ _ (VStr "event")) by done.
    rewrite Hidem. rewrite HJ at 2.
    apply map_eq. intros k. rewrite HJ.
    destruct (decide (k = "source")) as [->|?]; [by rewrite !lookup_insert_eq|].
    rewrite !(lookup_insert_ne _ "source") by done.
    destruct (decide (k = "ts")) as [->|?]; [by rewrite !lookup_insert_eq|].
    rewrite !(lookup_insert_ne _ "ts") by done.
    destruct (decide (k = "kind")) as [->|?]; [by rewrite !lookup_insert_eq|].
    rewrite !(lookup_insert_ne _ "kind") by done.
    rewrite !(lookup_insert_ne _ "source") by done.
    rewrite !(lookup_insert_ne _ "ts") by done.
    by rewrite !(lookup_insert_ne _ "kind") by done.
Qed.

Lemma sample_replays s body now now' m :
  isFinite now = true ->
  normalizeSample body now = NormOk m ->
  let msg := VObj (<["source" := VNum (source_number s)]> m) in
  exists msg', record s (JSON_value msg) now' = Some msg'
    /\ JSON_value msg' = JSON_value msg.
Proof using Type.
  intros Hnow Hn msg.
  set (body' := JSON_value msg).
  assert (Hget : forall k, k <> "source" ->
            get body' k = default VUndefined (m !! k ≫= JSON_property)).
  { intros k Hk. subst body' msg. by rewrite get_JSON_value, lookup_insert_ne. }
  assert (Hp : exists p, toNum (get body "pitch") = Some p).
  { revert Hn. unfold normalizeSample. destruct (toNum (get body "pitch")); [eauto|done]. }
  destruct Hp as (p & Hp).
  destruct (toNum_json_number p (toNum_finite _ _ Hp)) as (p' & Hp1 & Hp2 & Hp3 & Hp4).
  assert (Ht : isFinite (default now (toNum (get body "ts"))) = true).
  { destruct (toNum (get body "ts")) eqn:E; [by eapply toNum_finite|done]. }
  destruct (toNum_json_number _ Ht) as (t' & Ht1 & Ht2 & Ht3 & Ht4).
  assert (Hev' : get body' "event" = VUndefined).
  { rewrite Hget, (normalizeSample_lookup _ _ _ "event" Hn) by done.
    repeat case_decide; try done.
    match goal with H : _ ∈ optional_fields |- _ =>
      by apply not_optional_field in H; [|repeat constructor] end. }
  assert (Hpitch' : get body' "pitch" = VNum p').
  { rewrite Hget, (normalizeSample_lookup _ _ _ "pitch" Hn) by done.
    repeat case_decide; try done. rewrite Hp. cbn. by rewrite ?Hp1. }
  assert (Hts' : get body' "ts" = VNum t').
  { rewrite Hget, (normalizeSample_lookup _ _ _ "ts" Hn) by done.
    by repeat case_decide. }
  destruct (normalizeSample body' now') as [err|m'] eqn:Hn'.
  { revert Hn'. unfold normalizeSample. by rewrite Hpitch', Hp2. }
  exists (VObj (<["source" := VNum (source_number s)]> m')). split.
  - unfold record, normalize. rewrite Hev'. cbn [is_string]. by rewrite Hn'.
  - change (JSON_value msg) with body'.
    assert (Hobj : body' = VObj (omap JSON_property (<["source" := VNum (source_number s)]> m)))
      by done.
    rewrite Hobj at 1. cbn [JSON_value]. f_equal. apply map_eq. intros k.
    rewrite !lookup_omap.
    destruct (decide (k = "source")) as [->|Hk]; [by rewrite !lookup_insert_eq|].
    rewrite !lookup_insert_ne by done.
    rewrite (normalizeSample_lookup _ _ _ k Hn'), (normalizeSample_lookup _ _ _ k Hn).
    repeat case_decide; try done.
    + rewrite Hpitch', Hp2, Hp. cbn. by rewrite Hp4, Hp1.
    + rewrite Hts', Ht2. cbn. by rewrite Ht4, Ht1.
    + rewrite Hget, (normalizeSample_lookup _ _ _ k Hn) by done.
      repeat case_decide; try done.
      cbn [mbind option_bind]. apply reread_property.
      apply num_or_undefined_shape. intros x. apply toNum_finite.
Qed.


(** *** Latest and history *)

Lemma run_history_nil s t1 t2 l :
  MAX_BUFFER <= 0 -> getHistory s (run (init t1 t2) l) = [].
Proof.
  intros Hmax. induction l as [|i l IH] using rev_ind; [by destruct s|].
  rewrite run_snoc, step_history, IH.
  destruct (post_record s i) as [msg|]; [|done].
  unfold bounded_push. cbn [app length].
  by destruct (Z.ltb_spec MAX_BUFFER (Z.of_nat 1)); [|lia].
Qed.

Lemma last_filter_drop {A} (f : A -> bool) n (l : list A) x :
  last (List.filter f (drop n l)) = Some x -> last (List.filter f l) = Some x.
Proof.
  intros H. rewrite <- (take_drop n l) at 1.
  by rewrite List.filter_app, last_app, H.
Qed.

(** X20. The two read routes agree: whenever the history of a source
    holds a sample, [latest] of that source is the last sample in the
    history, so [GET /latestN] is the serialisation of the last sample of
    what [GET /historyN] lists, whatever [MAX_BUFFER] is. *)
Theorem latest_is_last_sample_of_history s t1 t2 l x :
  let st := run (init t1 t2) l in
  last (List.filter is_sample (getHistory s st)) = Some x ->
  getLatest s st = x /\ GET_latest s st = JSON_value x.
Proof.
  intros st Hx. subst st.
  assert (getLatest s (run (init t1 t2) l) = x) as Hl.
  { rewrite run_latest.
    destruct (Z.le_gt_cases 0 MAX_BUFFER) as [Hmax|Hmax].
    - rewrite run_history in Hx by done. unfold lastn in Hx.
      by rewrite (last_filter_drop _ _ _ _ Hx).
    - rewrite run_history_nil in Hx by lia. done. }
  split; [done|]. unfold GET_latest. by rewrite Hl.
Qed.

End Config.

(** ** The properties on concrete inputs

    The configuration is the default one ([MAX_BUFFER] 2000, windows 300 and
    1000, the two [.ndjson] files) unless a smaller buffer is named. *)

Example Number_of_string_examples :
  Number_of_string "12.5" = 12.5%float
  /\ Number_of_string " 1e3 " = 1000%float
  /\ Number_of_string "0x1F" = 31%float
  /\ isFinite (Number_of_string "abc") = false
  /\ isFinite (Number_of_string "1e400") = false
  /\ toNum (VStr "   ") = None
  /\ toNum (VStr "12.5") = Some 12.5%float.
Proof. vm_compute. by repeat split. Qed.

Example window_examples :
  Math_floor 12.5 = 12 /\ Math_floor (-12.5) = -13 /\ Math_floor 1000 = 1000
  /\ window 300 1000 (VObj ∅) = 300
  /\ window 300 1000 (VObj (object [("window", VStr "50.7")])) = 50
  /\ window 300 1000 (VObj (object [("window", VNum 5)])) = 20
  /\ window 300 1000 (VObj (object [("window", VNum 1e9)])) = 1000.
Proof. vm_compute. by repeat split. Qed.

(** Scenario A: [{"pitch": 10}] posted to [/imu] is acknowledged and
    becomes [latest1], with [kind], [source] and the clock reading as [ts]. *)
Example scenario_A :
  (ingest 2000 "telemetry.ndjson" "telemetry2.ndjson" Source1 body_pitch_10 5 (init 1 2)).1
  = acknowledgment
  /\ JSON_value
       (getLatest Source1
          (ingest 2000 "telemetry.ndjson" "telemetry2.ndjson" Source1 body_pitch_10 5
             (init 1 2)).2)
     = VObj (object [("kind", VStr "sample"); ("pitch", VNum 10); ("ts", VNum 5);
                     ("source", VNum 1)]).
Proof. split; vm_compute; reflexivity. Qed.

(** Scenario B: an event posted to [/imu2] is appended to the second file. *)
Example scenario_B :
  appended
    (ingest 2000 "telemetry.ndjson" "telemetry2.ndjson" Source2 body_button_click 5
       (init 1 2)).2
  = [("telemetry2.ndjson",
      VObj (object [("kind", VStr "event"); ("event", VStr "button_click");
                    ("ts", VNum 123456); ("source", VNum 2)]))].
Proof. vm_compute. reflexivity. Qed.

(** A body that names its own [kind], [source] and [ts] is stored with the
    server's. *)
Example forged_fields_are_overridden :
  getHistory Source1
    (ingest 2000 "telemetry.ndjson" "telemetry2.ndjson" Source1 body_forged 5 (init 1 2)).2
  = [VObj (object [("event", VStr "calibrate"); ("kind", VStr "event");
                   ("source", VNum 1); ("ts", VNum 5)])].
Proof. vm_compute. reflexivity. Qed.

(** With both sources selected the window is the samples of both
    histories by ascending [ts]. *)
(** On the store, with [history1] at address 0 and [history2] at address 1:
    the result is the seventh array, and the two histories keep their
    three and one records. *)
Example combinedSamples_in_mixed_run :
  (combinedSamples_in 300 1000 (VObj ∅) 0 1
     [history1 (run 2000 "telemetry.ndjson" "telemetry2.ndjson" (init 1 2) mixed_run);
      history2 (run 2000 "telemetry.ndjson" "telemetry2.ndjson" (init 1 2) mixed_run)]).1
  = 6%nat
  /\ length <$>
       (combinedSamples_in 300 1000 (VObj ∅) 0 1
          [history1 (run 2000 "telemetry.ndjson" "telemetry2.ndjson" (init 1 2) mixed_run);
           history2 (run 2000 "telemetry.ndjson" "telemetry2.ndjson" (init 1 2) mixed_run)]).2
     = [3; 1; 3; 2; 1; 1; 3]%nat.
Proof. split; vm_compute; reflexivity. Qed.

Example combinedSamples_mixed_run :
  ts_of <$> combinedSamples 300 1000 (VObj ∅)
              (run 2000 "telemetry.ndjson" "telemetry2.ndjson" (init 1 2) mixed_run)
  = [10; 20; 30]%float.
Proof. vm_compute. reflexivity. Qed.

Lemma rejected_body_has_no_effect_witness :
  (forall c e, get body_pitch_abc "event" <> VStr (String c e))
  /\ toNum (get body_pitch_abc "pitch") = None
  /\ status (ingest 2000 "telemetry.ndjson" "telemetry2.ndjson" Source1 body_pitch_abc 5
               (init 1 2)).1 = 400
  /\ (ingest 2000 "telemetry.ndjson" "telemetry2.ndjson" Source1 body_pitch_abc 5
        (init 1 2)).2 = init 1 2.
Proof.
  assert (H1 : forall c e, get body_pitch_abc "event" <> VStr (String c e)).
  { intros c e H. vm_compute in H. discriminate H. }
  assert (H2 : toNum (get body_pitch_abc "pitch") = None)
    by (vm_compute; reflexivity).
  split; [exact H1|]. split; [exact H2|].
  destruct (rejected_body_has_no_effect 2000 "telemetry.ndjson" "telemetry2.ndjson"
              Source1 body_pitch_abc 5 (init 1 2) H1 H2) as (_ & Hs & _ & Hst & _).
  split; [exact Hs|exact Hst].
Defined.

(** The counterexample to C2 as stated: an empty-string [event] next to a
    numeric pitch is rejected, not accepted as a sample. *)
Lemma empty_event_with_numeric_pitch_is_rejected :
  get body_empty_event "event" = VStr EmptyString
  /\ toNum (get body_empty_event "pitch") = Some 10%float
  /\ ingest 2000 "telemetry.ndjson" "telemetry2.ndjson" Source1 body_empty_event 5
       (init 1 2)
     = (rejection (NormError "event must be a string"), init 1 2).
Proof. repeat split; vm_compute; reflexivity. Qed.


Lemma uncoercible_optional_field_is_omitted_witness :
  "ax" ∈ optional_fields
  /\ toNum (get body_bad_ax "ax") = None
  /\ is_string (get body_bad_ax "event") = false
  /\ is_Some (toNum (get body_bad_ax "pitch"))
  /\ get (getLatest Source1
            (ingest 2000 "telemetry.ndjson" "telemetry2.ndjson" Source1 body_bad_ax 5
               (init 1 2)).2) "ax" = VUndefined.
Proof.
  assert (H1 : "ax" ∈ optional_fields) by (unfold optional_fields; apply list_elem_of_here).
  assert (H2 : toNum (get body_bad_ax "ax") = None) by (vm_compute; reflexivity).
  assert (H3 : is_string (get body_bad_ax "event") = false) by (vm_compute; reflexivity).
  assert (H4 : is_Some (toNum (get body_bad_ax "pitch")))
    by (exists 10%float; vm_compute; reflexivity).
  split; [exact H1|]. split; [exact H2|]. split; [exact H3|]. split; [exact H4|].
  destruct (uncoercible_optional_field_is_omitted 2000 "telemetry.ndjson"
              "telemetry2.ndjson" Source1 body_bad_ax 5 (init 1 2) "ax" H1 H2 H3 H4)
    as (msg & _ & _ & Hl & Hu & _).
  rewrite Hl. exact Hu.
Defined.

(** Scenario D: after 2001 samples with [MAX_BUFFER] 2000 the history has
    2000 records and starts with the second sample. *)
Example scenario_D :
  length (getHistory Source1
            (run 2000 "telemetry.ndjson" "telemetry2.ndjson" (init 1 2)
               (numbered_samples 2001))) = 2000%nat
  /\ (fun x => get x "pitch")
       <$> head (getHistory Source1
                   (run 2000 "telemetry.ndjson" "telemetry2.ndjson" (init 1 2)
                      (numbered_samples 2001)))
     = Some (VNum 2).
Proof. split; vm_compute; reflexivity. Qed.

(** With room for two records, the first of three samples is evicted. *)
Example history_of_three_samples :
  (fun x => get x "pitch")
    <$> getHistory Source1
          (run 2 "telemetry.ndjson" "telemetry2.ndjson" (init 1 2) three_samples)
  = [VNum 2; VNum 3].
Proof. vm_compute. reflexivity. Qed.

Lemma history_is_last_MAX_BUFFER_accepted_witness :
  0 <= 2000
  /\ Z.of_nat (length (getHistory Source1
                         (run 2000 "telemetry.ndjson" "telemetry2.ndjson" (init 1 2)
                            (numbered_samples 2001)))) = 2000
  /\ getHistory Source1
       (run 2000 "telemetry.ndjson" "telemetry2.ndjson" (init 1 2)
          (numbered_samples 2001))
     = drop 1 (accepted Source1 (numbered_samples 2001)).
Proof.
  assert (H0 : 0 <= 2000) by lia.
  split; [exact H0|].
  destruct (history_is_last_MAX_BUFFER_accepted 2000 "telemetry.ndjson"
              "telemetry2.ndjson" Source1 1 2 (numbered_samples 2001) H0)
    as (_ & _ & Hk).
  apply (Hk 1%nat). vm_compute. reflexivity.
Defined.




(** ** The further properties on concrete inputs *)

Lemma sample_record_shape_witness :
  isFinite 5 = true
  /\ is_string (get body_pitch_10 "event") = false
  /\ exists msg, record Source1 body_pitch_10 5 = Some msg
       /\ exists f, get msg "pitch" = VNum f /\ isFinite f = true.
Proof.
  assert (H1 : isFinite 5 = true) by (vm_compute; reflexivity).
  assert (H2 : is_string (get body_pitch_10 "event") = false) by (vm_compute; reflexivity).
  split; [exact H1|]. split; [exact H2|].
  eexists. split; [vm_compute; reflexivity|].
  destruct (sample_record_shape Source1 body_pitch_10 5 _ "pitch" H1 H2 eq_refl)
    as [H|[[H _]|[_ H]]].
  - vm_compute in H. discriminate H.
  - discriminate H.
  - exact H.
Defined.

Lemma event_record_passes_body_through_witness :
  is_string (get body_button_click "event") = true
  /\ exists msg, record Source1 body_button_click 5 = Some msg
       /\ get msg "event" = VStr "button_click"
       /\ get (JSON_value msg) "event" = VStr "button_click".
Proof.
  assert (H1 : is_string (get body_button_click "event") = true)
    by (vm_compute; reflexivity).
  split; [exact H1|].
  destruct (event_record_passes_body_through Source1 body_button_click 5 _ "event"
              H1 eq_refl)
    as (Hm & Hj & _); try discriminate.
  eexists. split; [reflexivity|]. split.
  - etrans; [exact Hm|vm_compute; reflexivity].
  - etrans; [exact Hj|vm_compute; reflexivity].
Defined.

Lemma blank_string_is_not_zero_witness :
  falsy_string (trim "   ") = true
  /\ toNum (VStr "   ") = None
  /\ ingest 2000 "telemetry.ndjson" "telemetry2.ndjson" Source1
       (VObj (<["pitch" := VStr "   "]> ∅)) 5 (init 1 2)
     = (rejection (NormError "pitch must be a number"), init 1 2).
Proof.
  assert (H1 : falsy_string (trim "   ") = true) by (vm_compute; reflexivity).
  assert (H2 : (∅ : gmap string value) !! "event" = None) by reflexivity.
  split; [exact H1|].
  destruct (blank_string_is_not_zero 2000 "telemetry.ndjson" "telemetry2.ndjson"
              Source1 "   " ∅ 5 (init 1 2) H1 H2) as (_ & Hn & Hi).
  split; [exact Hn|exact Hi].
Defined.




Lemma no_history_without_buffer_witness :
  0 <= 0
  /\ getHistory Source1
       (run 0 "telemetry.ndjson" "telemetry2.ndjson" (init 1 2) three_samples) = []
  /\ get (getLatest Source1
            (run 0 "telemetry.ndjson" "telemetry2.ndjson" (init 1 2) three_samples))
       "pitch" = VNum 3.
Proof.
  assert (H0 : 0 <= 0) by lia.
  split; [exact H0|].
  destruct (no_history_without_buffer 0 "telemetry.ndjson" "telemetry2.ndjson"
              Source1 1 2 three_samples H0) as (Hh & _ & Hl).
  split; [exact Hh|]. rewrite Hl. vm_compute. reflexivity.
Defined.


Lemma closed_socket_is_left_alone_witness :
  exists c c',
    clients (run 2000 "telemetry.ndjson" "telemetry2.ndjson" (init 1 2)
               (Connect :: three_samples)) !! 0%nat = Some c
    /\ clients (run 2000 "telemetry.ndjson" "telemetry2.ndjson" (init 1 2)
                  ((Connect :: three_samples) ++ Close 0 :: mixed_run)) !! 0%nat
       = Some c'
    /\ is_open c' = false
    /\ length (received c') = 5%nat.
Proof.
  eexists.
  destruct (closed_socket_is_left_alone 2000 "telemetry.ndjson" "telemetry2.ndjson"
              (init 1 2) (Connect :: three_samples) mixed_run 0 _ eq_refl)
    as (c' & Hc' & Ho & Hr).
  exists c'. split; [vm_compute; reflexivity|]. split; [exact Hc'|].
  split; [exact Ho|]. rewrite Hr. vm_compute. reflexivity.
Defined.

Lemma combined_analysis_is_sorted_witness :
  Forall (fun i => finite_clock i = true) mixed_run
  /\ StronglySorted ts_le
       (combinedSamples 300 1000 (VObj (object [("source", VStr "both")]))
          (run 2000 "telemetry.ndjson" "telemetry2.ndjson" (init 1 2) mixed_run))
  /\ ts_of <$> combinedSamples 300 1000 (VObj (object [("source", VStr "both")]))
                 (run 2000 "telemetry.ndjson" "telemetry2.ndjson" (init 1 2) mixed_run)
     = [10; 20; 30]%float.
Proof.
  assert (H0 : Forall (fun i => finite_clock i = true) mixed_run)
    by (repeat constructor).
  split; [exact H0|]. split; [|vm_compute; reflexivity].
  apply (combined_analysis_is_sorted 2000 300 1000 "telemetry.ndjson"
           "telemetry2.ndjson" (VObj (object [("source", VStr "both")])) 1 2 mixed_run H0);
    vm_compute; reflexivity.
Defined.


Lemma no_slouch_is_good_witness :
  slouchCount 15 [1; 2; 3]%float = 0%nat
  /\ fallback_overall 15 [1; 2; 3]%float = "good".
Proof.
  assert (H0 : slouchCount 15 [1; 2; 3]%float = 0%nat) by (vm_compute; reflexivity).
  split; [exact H0|]. exact (no_slouch_is_good 15 [1; 2; 3]%float H0).
Defined.


Lemma latest_is_last_sample_of_history_witness :
  exists x,
    last (List.filter is_sample
            (getHistory Source1
               (run 2 "telemetry.ndjson" "telemetry2.ndjson" (init 1 2) three_samples)))
    = Some x
    /\ get x "pitch" = VNum 3
    /\ getLatest Source1
         (run 2 "telemetry.ndjson" "telemetry2.ndjson" (init 1 2) three_samples) = x.
Proof.
  eexists. split; [vm_compute; reflexivity|]. split; [vm_compute; reflexivity|].
  apply (latest_is_last_sample_of_history 2 "telemetry.ndjson" "telemetry2.ndjson"
           Source1 1 2 three_samples).
  vm_compute. reflexivity.
Defined.

End Server.
